(** * QuantumOS, BIOS boot stage 1: a shallow embedding of [core_ops.c] and
    [start.c], and the properties of the scan / relocate / handoff sequence.

    Integers of the C code are modelled as [Z] with the wrap-around of the
    32-bit unsigned type written out ([u32]).  Memory is a total map from
    32-bit addresses to bytes.  Loops whose trip count is not fixed on entry
    ([while], the endless [for] of the scanner) take a [fuel] argument and
    return [None] when it runs out; the theorems show that the fuel the stage
    needs is bounded. *)

From Stdlib Require Import String Ascii ZArith List Bool Lia.
Import ListNotations.
Local Open Scope Z_scope.

(** ** Machine integers and memory ([types.h]) *)

Module Machine.

(** [u32], [uint32]: unsigned 32-bit arithmetic wraps modulo 2^32. *)
Definition u32 (z : Z) : Z := z mod 4294967296.

(** [u8], [char] as stored in memory: one byte. *)
Definition u8 (z : Z) : Z := z mod 256.

(** Byte-addressable memory; pointers are 32 bits wide. *)
Definition mem : Type := Z -> Z.

(** [p[0]] read through a byte pointer. *)
Definition load8 (m : mem) (p : Z) : Z := u8 (m (u32 p)).

(** [p[0] = v] through a byte pointer. *)
Definition store8 (m : mem) (p v : Z) : mem :=
  fun a => if a =? u32 p then u8 v else m a.

(** Option monad for the fuelled loops. *)
Definition bind {A B : Type} (x : option A) (f : A -> option B) : option B :=
  match x with
  | Some a => f a
  | None => None
  end.

End Machine.

Export Machine.

Notation "x <- e1 ;; e2" := (bind e1 (fun x => e2))
  (at level 61, e1 at next level, right associativity).
Notation "' p <- e1 ;; e2" := (bind e1 (fun p => e2))
  (at level 61, p pattern, e1 at next level, right associativity).

(** ** The primitive runtime ([core_ops.c]) *)

Module CoreOps.

(** [memcpy], lines 29-35.  The loop [for (u32 i = 0; i < n; i++)] has its
    bound fixed on entry and runs exactly [n] times; [k] counts the remaining
    iterations and [i] is the loop counter, which never reaches 2^32. *)
Fixpoint memcpy_loop (k : nat) (cdest csrc i : Z) (m : mem) : mem :=
  match k with
  | O => m
  | S k' =>
      memcpy_loop k' cdest csrc (i + 1)
        (store8 m (cdest + i) (load8 m (csrc + i)))
  end.

Definition memcpy (dest src n : Z) (m : mem) : mem :=
  memcpy_loop (Z.to_nat n) dest src 0 m.

(** [memset], lines 37-41.  [for (; n != 0; n--) *temp++ = val;] counts the
    [int] n down to zero: [n] iterations for a non-negative [n] (a negative
    [n] wraps through the 32-bit range first). *)
Fixpoint memset_loop (k : nat) (temp val : Z) (m : mem) : mem :=
  match k with
  | O => m
  | S k' => memset_loop k' (temp + 1) val (store8 m temp val)
  end.

Definition memset (dst val n : Z) (m : mem) : mem :=
  memset_loop (Z.to_nat (u32 n)) dst val m.

(** [digit_count], lines 43-53. *)
Fixpoint digit_count_loop (fuel : nat) (num count : Z) : option Z :=
  match fuel with
  | O => None
  | S f =>
      if 0 <? num
      then digit_count_loop f (num / 10) (u32 (count + 1))
      else Some count
  end.

Definition digit_count (fuel : nat) (num : Z) : option Z :=
  if num =? 0 then Some 1 else digit_count_loop fuel num 0.

(** [itoa], lines 55-71.  The [while (num != 0)] loop writes the digits from
    the last position backwards; [index--] wraps after the first digit. *)
Fixpoint itoa_loop (fuel : nat) (num index number : Z) (m : mem) : option mem :=
  match fuel with
  | O => None
  | S f =>
      if num =? 0 then Some m
      else
        let x := num mod 10 in
        itoa_loop f (num / 10) (u32 (index - 1)) number
          (store8 m (number + index) (x + 48))
  end.

Definition itoa (fuel : nat) (num number : Z) (m : mem) : option mem :=
  dgcount <- digit_count fuel num ;;
  let index := u32 (dgcount - 1) in
  if (num =? 0) && (dgcount =? 1)
  then Some (store8 (store8 m number 48) (number + 1) 0)
  else
    m' <- itoa_loop fuel num index number m ;;
    Some (store8 m' (number + dgcount) 0).

(** [strlen], lines 73-79. *)
Fixpoint strlen_loop (fuel : nat) (str length : Z) (m : mem) : option Z :=
  match fuel with
  | O => None
  | S f =>
      if load8 m (str + length) =? 0 then Some length
      else strlen_loop f str (u32 (length + 1)) m
  end.

Definition strlen (fuel : nat) (str : Z) (m : mem) : option Z :=
  strlen_loop fuel str 0 m.

End CoreOps.

Export CoreOps.

(** ** The stage itself ([start.c]) *)

Module Stage.

(** What the stage does to the outside, in program order: a character cell
    written through the display cursor, the call of [memcpy], the jump
    through [test_ptr], and the call of the external [switch_to_rust]. *)
Inductive event : Type :=
  | EvVga (p c : Z)
  | EvMemcpy (dest src n : Z)
  | EvCall (target : Z)
  | EvSwitchToRust (offset : Z).

(** The global state: raw memory and the global [vga_address] (line 31);
    [trace] is the history of events, oldest first. *)
Record state : Type := mkState {
  st_mem : mem;
  vga_address : Z;
  trace : list event
}.

Definition emit (e : event) (st : state) : state :=
  mkState (st_mem st) (vga_address st) (trace st ++ [e]).

(** [*(vga_address += 2) = c;] *)
Definition vga_put (c : Z) (st : state) : state :=
  let p := u32 (vga_address st + 2) in
  mkState (store8 (st_mem st) p c) p (trace st ++ [EvVga p (u8 c)]).

(** [test], lines 34-36: [*(vga_address++) = 'q';].  [cmain] reaches it
    through [test_ptr] only, at the relocated address. *)
Definition test (st : state) : state :=
  let p := vga_address st in
  mkState (store8 (st_mem st) p 113) (u32 (p + 1)) (trace st ++ [EvVga p 113]).

(** [num_str] is an automatic array of [cmain]; it lives in a store of its
    own (the frame of [cmain], whose initial contents are arbitrary), at
    offset 0. *)
Definition num_str : Z := 0.

(** [for (u32 i = 0; i < strlen(num_str); i++) *(vga_address += 2) = num_str[i];]
    The length is evaluated again at every test of the condition. *)
Fixpoint print_loop (fuel inner : nat) (loc : mem) (i : Z) (st : state)
  : option state :=
  match fuel with
  | O => None
  | S f =>
      len <- strlen inner num_str loc ;;
      if i <? len
      then print_loop f inner loc (u32 (i + 1))
             (vga_put (load8 loc (num_str + i)) st)
      else Some st
  end.

(** The block that [cmain] repeats at lines 41-45, 80-84 and 93-97:
    clear [num_str], render [v] into it, write it out. *)
Definition print_num (fuel : nat) (v : Z) (loc : mem) (st : state)
  : option (mem * state) :=
  let loc := memset num_str 0 32 loc in
  loc <- itoa fuel v num_str loc ;;
  st <- print_loop fuel fuel loc 0 st ;;
  Some (loc, st).

(** The sentinel tests of lines 54 and 58; [our_ptr] is the null pointer. *)
Definition start_match (m : mem) (i : Z) : bool :=
  ((load8 m i =? 33) && (load8 m (u32 (i + 1)) =? 115))
  || ((load8 m i =? 115) && (load8 m (u32 (i + 1)) =? 33)).

Definition end_match (m : mem) (i : Z) : bool :=
  ((load8 m i =? 190) && (load8 m (u32 (i + 1)) =? 239))
  || ((load8 m i =? 239) && (load8 m (u32 (i + 1)) =? 190)).

(** The scan, lines 52-73: a [for] without a condition, left by one of the
    two [break]s.  The result is [(loader_start, loader_end)] and the state,
    to which the bound-hit branch has written its four characters. *)
Fixpoint scan_loop (fuel : nat) (i loader_start loader_end : Z) (st : state)
  : option (Z * Z * state) :=
  match fuel with
  | O => None
  | S f =>
      let loader_start :=
        if start_match (st_mem st) i then i else loader_start in
      if end_match (st_mem st) i then Some (loader_start, i, st)
      else if 65535 <=? i
      then Some (loader_start, loader_end,
                 vga_put 112 (vga_put 111 (vga_put 111 (vga_put 80 st))))
      else scan_loop f (u32 (i + 1)) loader_start loader_end st
  end.

(** The values [cmain] holds when it hands over: its locals and the state. *)
Record outcome : Type := mkOutcome {
  loader_start : Z;
  loader_end : Z;
  loader_size : Z;
  final : state
}.

(** Lines 102-112: size, copy, the jump through [test_ptr] and the handoff.
    [test_fn] is the address of [test] in the image.  What the code at
    [test_fn + offset] does is outside the C source: the jump is recorded
    and nothing else is assumed of it. *)
Definition relocate (test_fn : Z) (loader_start loader_end : Z) (st : state)
  : outcome :=
  let loader_size := u32 (loader_end - loader_start) in
  let offset := 65536 in
  let dest := u32 (offset + loader_start) in
  let st := emit (EvMemcpy dest loader_start loader_size) st in
  let st := mkState (memcpy dest loader_start loader_size (st_mem st))
                    (vga_address st) (trace st) in
  let test_ptr := u32 (test_fn + offset) in
  let st := emit (EvCall test_ptr) st in
  let st := emit (EvSwitchToRust offset) st in
  mkOutcome loader_start loader_end loader_size st.

(** Lines 76-100: the bounds diagnostics. *)
Definition print_bounds (fuel : nat) (loader_start loader_end : Z)
  (loc : mem) (st : state) : option (mem * state) :=
  let st := vga_put 32 (vga_put 58 (vga_put 83 st)) in
  '(loc, st) <- print_num fuel loader_start loc st ;;
  let st := vga_put 32 (vga_put 32 st) in
  let st := vga_put 32 (vga_put 58 (vga_put 69 st)) in
  '(loc, st) <- print_num fuel loader_end loc st ;;
  let st := vga_put 32 (vga_put 32 st) in
  Some (loc, st).

(** [cmain], lines 38-112, up to the handoff. *)
Definition cmain (fuel : nat) (test_fn addr : Z) (frame : mem) (st : state)
  : option outcome :=
  '(loc, st) <- print_num fuel addr frame st ;;
  '(loader_start, loader_end, st) <- scan_loop fuel 0 0 0 st ;;
  '(loc, st) <- print_bounds fuel loader_start loader_end loc st ;;
  Some (relocate test_fn loader_start loader_end st).

(** The initialiser of [vga_address], line 31: [(char* )0xb8000]. *)
Definition vga_base : Z := 753664.

(** The state in which the firmware enters the stage: [image] in memory and
    the cursor at its initialiser. *)
Definition boot (image : mem) : state := mkState image vga_base [].

End Stage.

Export Stage.

(** ** Vocabulary of the statements *)

Module Vocabulary.

(** The [k] bytes found in memory from [p] on. *)
Fixpoint bytes_at (m : mem) (p : Z) (k : nat) : list Z :=
  match k with
  | O => []
  | S k' => load8 m p :: bytes_at m (p + 1) k'
  end.

(** Text as character codes. *)
Definition chars_of (s : string) : list Z :=
  map (fun a => Z.of_N (N_of_ascii a)) (list_ascii_of_string s).

(** Reading a string of decimal digits as an unsigned number. *)
Definition parse_decimal (l : list Z) : Z :=
  fold_left (fun acc c => acc * 10 + (c - 48)) l 0.

(** The decimal digits of [num], least significant first, as character
    codes; nothing for zero. *)
Fixpoint digits_rev (fuel : nat) (num : Z) : list Z :=
  match fuel with
  | O => []
  | S f => if num =? 0 then [] else (num mod 10 + 48) :: digits_rev f (num / 10)
  end.

(** The unsigned decimal form of a 32-bit value (at most ten digits). *)
Definition decimal (num : Z) : list Z :=
  if num =? 0 then [48] else rev (digits_rev 10 num).

(** A run of characters written through the display cursor. *)
Definition vga_puts (l : list Z) (st : state) : state :=
  fold_left (fun s c => vga_put c s) l st.

(** The display cells written by a trace, in order: address and character. *)
Fixpoint vga_writes (t : list event) : list (Z * Z) :=
  match t with
  | [] => []
  | EvVga p c :: t' => (p, c) :: vga_writes t'
  | _ :: t' => vga_writes t'
  end.

(** What a trace leaves when the display writes are taken out. *)
Fixpoint non_vga (t : list event) : list event :=
  match t with
  | [] => []
  | EvVga _ _ :: t' => non_vga t'
  | e :: t' => e :: non_vga t'
  end.

(** The last offset up to [i] (counted from 0 in [k] steps) at which the
    start sentinel matches, [acc] when there is none. *)
Fixpoint last_start (m : mem) (k : nat) (i acc : Z) : Z :=
  match k with
  | O => acc
  | S k' => last_start m k' (i + 1) (if start_match m i then i else acc)
  end.

(** The first offset (counted from [i] in [k] steps) at which the end
    sentinel matches. *)
Fixpoint first_end (m : mem) (k : nat) (i : Z) : option Z :=
  match k with
  | O => None
  | S k' => if end_match m i then Some i else first_end m k' (i + 1)
  end.

(** The scan in closed form: the bounds it yields for an image, and the
    token it writes when the bound is hit. *)
Definition scan_bound : nat := Z.to_nat 65536.

Definition scan_result (image : mem) : Z * Z * list Z :=
  match first_end image scan_bound 0 with
  | Some e => (last_start image (Z.to_nat (e + 1)) 0 0, e, [])
  | None => (last_start image scan_bound 0 0, 0, [80; 111; 111; 112])
  end.

(** The display events of a run of characters written from cursor [p]. *)
Fixpoint cell_events (p : Z) (l : list Z) : list event :=
  match l with
  | [] => []
  | c :: l' => EvVga (p + 2) (u8 c) :: cell_events (p + 2) l'
  end.

(** Everything [cmain] writes to the display, for the entry argument
    [addr] and the scan result of [image]. *)
Definition scan_start (image : mem) : Z := fst (fst (scan_result image)).
Definition scan_end (image : mem) : Z := snd (fst (scan_result image)).
Definition scan_token (image : mem) : list Z := snd (scan_result image).

Definition diagnostics (addr : Z) (image : mem) : list Z :=
  decimal addr ++ scan_token image ++ [83; 58; 32]
  ++ decimal (scan_start image) ++ [32; 32]
  ++ [69; 58; 32] ++ decimal (scan_end image) ++ [32; 32].

(** The sentinel tests up to the scan bound read the first 0x10001 bytes. *)
Definition same_image (m m' : mem) : Prop :=
  forall a, 0 <= a <= 65536 -> load8 m a = load8 m' a.

(** A memory image given by the bytes that are not zero. *)
Definition image_of (l : list (Z * Z)) : mem :=
  fun a => fold_right (fun pv r => if a =? fst pv then snd pv else r) 0 l.

(** [f] holds at the [k] offsets from [i] on. *)
Fixpoint all_from (f : Z -> bool) (k : nat) (i : Z) : bool :=
  match k with
  | O => true
  | S k' => f i && all_from f k' (i + 1)
  end.

(** The string that [str] points to, up to its terminator. *)
Definition c_string (fuel : nat) (str : Z) (m : mem) : option (list Z) :=
  len <- strlen fuel str m ;;
  Some (bytes_at m str (Z.to_nat len)).

(** The characters a trace has written to the display, in order. *)
Definition display_text (t : list event) : list Z := map snd (vga_writes t).

(** Character cells of the text-mode display sit at even offsets from the
    base 0xb8000, attribute bytes at odd offsets. *)
Definition attribute_cell (a : Z) : Prop :=
  exists k, 0 <= k < 16384 /\ a = vga_base + 2 * k + 1.

(** Images used to run the stage on. *)
Definition image_4_12 : mem := image_of [(4, 33); (5, 115); (12, 190); (13, 239)].
Definition image_10_90 : mem :=
  image_of [(3, 33); (4, 115); (10, 115); (11, 33); (90, 239); (91, 190);
            (200, 190); (201, 239)].
Definition image_50 : mem := image_of [(50, 190); (51, 239)].
Definition image_blank : mem := image_of [].
Definition image_start_only : mem := image_of [(5, 33); (6, 115); (32769, 7)].
Definition image_end_at_bound : mem := image_of [(65535, 190); (65536, 239)].
Definition image_start_at_bound : mem := image_of [(65535, 33); (65536, 115)].

End Vocabulary.

Export Vocabulary.

(** Facts about an example image that are settled by running the
    definitions. *)
Ltac by_evaluation := vm_compute; reflexivity.

(** ** Machine arithmetic *)

Lemma u32_range z : 0 <= u32 z < 4294967296.
Proof. unfold u32. apply Z.mod_pos_bound. lia. Qed.

Lemma u32_small z : 0 <= z < 4294967296 -> u32 z = z.
Proof. intros H. unfold u32. apply Z.mod_small. exact H. Qed.

Lemma u32_idem z : u32 (u32 z) = u32 z.
Proof. apply u32_small, u32_range. Qed.

Lemma u8_range z : 0 <= u8 z < 256.
Proof. unfold u8. apply Z.mod_pos_bound. lia. Qed.

Lemma u8_small z : 0 <= z < 256 -> u8 z = z.
Proof. intros H. unfold u8. apply Z.mod_small. exact H. Qed.

Lemma u32_add_inj p i j :
  u32 (p + i) = u32 (p + j) -> -4294967296 < i - j < 4294967296 -> i = j.
Proof.
  unfold u32. intros H Hb.
  Z.to_euclidean_division_equations. lia.
Qed.

Lemma u32_sub_add c i :
  0 <= i < 4294967296 -> (u32 (c + i) - c) mod 4294967296 = i.
Proof.
  intros Hi. unfold u32. rewrite Zminus_mod_idemp_l.
  replace (c + i - c) with i by lia. now apply Z.mod_small.
Qed.

Lemma load8_range m p : 0 <= load8 m p < 256.
Proof. apply u8_range. Qed.

Lemma load8_u32 m p : load8 m (u32 p) = load8 m p.
Proof. unfold load8. now rewrite u32_idem. Qed.

Lemma load8_store8_same m p v : load8 (store8 m p v) p = u8 v.
Proof.
  unfold load8, store8. rewrite Z.eqb_refl.
  apply u8_small, u8_range.
Qed.

Lemma load8_store8_other m p v q :
  u32 q <> u32 p -> load8 (store8 m p v) q = load8 m q.
Proof.
  unfold load8, store8. intros H.
  destruct (Z.eqb_spec (u32 q) (u32 p)); [contradiction | reflexivity].
Qed.

Lemma load8_store8 m p v q :
  load8 (store8 m p v) q = if u32 q =? u32 p then u8 v else load8 m q.
Proof.
  destruct (Z.eqb_spec (u32 q) (u32 p)) as [E | E].
  - unfold load8, store8. rewrite E, Z.eqb_refl. apply u8_small, u8_range.
  - now apply load8_store8_other.
Qed.

(** ** [memcpy] *)

Lemma memcpy_loop_snoc k : forall cdest csrc i m,
  memcpy_loop (S k) cdest csrc i m =
  store8 (memcpy_loop k cdest csrc i m) (cdest + (i + Z.of_nat k))
         (load8 (memcpy_loop k cdest csrc i m) (csrc + (i + Z.of_nat k))).
Proof.
  induction k as [| k IH]; intros cdest csrc i m.
  - simpl. now rewrite Z.add_0_r.
  - change (memcpy_loop (S (S k)) cdest csrc i m)
      with (memcpy_loop (S k) cdest csrc (i + 1)
              (store8 m (cdest + i) (load8 m (csrc + i)))).
    rewrite IH.
    replace (i + 1 + Z.of_nat k) with (i + Z.of_nat (S k)) by lia.
    reflexivity.
Qed.

Lemma memcpy_loop_frame k : forall cdest csrc i m a,
  (forall j, 0 <= j < Z.of_nat k -> u32 a <> u32 (cdest + (i + j))) ->
  load8 (memcpy_loop k cdest csrc i m) a = load8 m a.
Proof.
  induction k as [| k IH]; intros cdest csrc i m a H.
  - reflexivity.
  - simpl. rewrite IH.
    + apply load8_store8_other.
      specialize (H 0). rewrite Z.add_0_r in H. apply H. lia.
    + intros j Hj. replace (i + 1 + j) with (i + (j + 1)) by lia.
      apply H. lia.
Qed.

(** The bytes of a range that the source range does not meet arrive. *)
Lemma memcpy_loop_disjoint k : forall dest src m,
  Z.of_nat k <= 4294967296 ->
  (forall i j, 0 <= i < Z.of_nat k -> 0 <= j < Z.of_nat k ->
               u32 (dest + i) <> u32 (src + j)) ->
  forall i, 0 <= i < Z.of_nat k ->
    load8 (memcpy_loop k dest src 0 m) (dest + i) = load8 m (src + i).
Proof.
  induction k as [| k IH]; intros dest src m Hk Hd i Hi.
  - simpl in Hi. lia.
  - rewrite memcpy_loop_snoc. rewrite Z.add_0_l.
    rewrite load8_store8.
    destruct (Z.eqb_spec (u32 (dest + i)) (u32 (dest + Z.of_nat k))) as [E | E].
    + apply u32_add_inj in E; [| lia]. subst i.
      rewrite u8_small by apply load8_range.
      apply memcpy_loop_frame. intros j Hj.
      rewrite Z.add_0_l. intro C. symmetry in C. revert C. apply Hd; lia.
    + apply IH; try lia.
      * intros; apply Hd; lia.
      * assert (i <> Z.of_nat k) by (intro; subst; contradiction). lia.
Qed.

(** A forward copy to a destination [D] bytes above the source, ranges
    overlapping or not: the byte that ends up at [a] is the source byte of
    the same residue modulo [D]. *)
Lemma memcpy_loop_shift k : forall s D m a,
  0 <= s -> 0 < D < 4294967296 -> s + Z.of_nat k <= 4294967296 ->
  load8 (memcpy_loop k (s + D) s 0 m) a =
  let j := (u32 a - (s + D)) mod 4294967296 in
  if j <? Z.of_nat k then load8 m (s + j mod D) else load8 m a.
Proof.
  induction k as [| k IH]; intros s D m a Hs HD Hk.
  - cbv zeta. simpl Z.of_nat.
    destruct (Z.ltb_spec ((u32 a - (s + D)) mod 4294967296) 0) as [L | L];
      [| reflexivity].
    assert (0 <= (u32 a - (s + D)) mod 4294967296)
      by (apply Z.mod_pos_bound; lia).
    lia.
  - rewrite memcpy_loop_snoc, Z.add_0_l, load8_store8.
    cbv zeta.
    set (K := Z.of_nat k) in *.
    assert (HK : Z.of_nat (S k) = K + 1) by (unfold K; lia).
    rewrite HK in *.
    destruct (Z.eqb_spec (u32 a) (u32 (s + D + K))) as [E | E].
    + assert (Ej : (u32 a - (s + D)) mod 4294967296 = K).
      { rewrite E. unfold u32.
        rewrite Zminus_mod_idemp_l.
        replace (s + D + K - (s + D)) with K by lia.
        apply Z.mod_small. lia. }
      rewrite Ej.
      destruct (Z.ltb_spec K (K + 1)); [| lia].
      rewrite u8_small by apply load8_range.
      rewrite (IH s D m (s + K)) by lia.
      cbv zeta. rewrite (u32_small (s + K)) by lia.
      replace (s + K - (s + D)) with (K - D) by lia.
      destruct (Z_lt_le_dec K D) as [Lt | Ge].
      * replace ((K - D) mod 4294967296) with (K - D + 4294967296).
        2:{ symmetry. rewrite <- (Z_mod_plus_full (K - D) 1 4294967296).
            rewrite Z.mul_1_l. apply Z.mod_small. lia. }
        destruct (Z.ltb_spec (K - D + 4294967296) K); [lia |].
        rewrite (Z.mod_small K D) by lia. reflexivity.
      * rewrite (Z.mod_small (K - D) 4294967296) by lia.
        destruct (Z.ltb_spec (K - D) K); [| lia].
        replace (K - D) with (K + (-1) * D) by lia.
        rewrite Z_mod_plus_full. reflexivity.
    + rewrite (IH s D m a) by lia. cbv zeta.
      set (j := (u32 a - (s + D)) mod 4294967296).
      assert (Hj : j <> K).
      { intro C. apply E. unfold j in C. clear - C.
        unfold u32 in *. Z.to_euclidean_division_equations. lia. }
      destruct (Z.ltb_spec j K), (Z.ltb_spec j (K + 1)); try lia; reflexivity.
Qed.

(** ** Decimal digits *)

Lemma pow10_succ f : 10 ^ Z.of_nat (S f) = 10 * 10 ^ Z.of_nat f.
Proof. rewrite Nat2Z.inj_succ. apply Z.pow_succ_r. lia. Qed.

Lemma div10_bound f num :
  0 <= num < 10 ^ Z.of_nat (S f) -> 0 <= num / 10 < 10 ^ Z.of_nat f.
Proof.
  rewrite pow10_succ. intros [H0 H1]. split.
  - apply Z.div_pos; lia.
  - apply Z.div_lt_upper_bound; lia.
Qed.

Lemma digits_rev_zero f : digits_rev f 0 = [].
Proof. destruct f; reflexivity. Qed.

Lemma digits_rev_fuel f : forall num g,
  0 <= num < 10 ^ Z.of_nat f -> (f <= g)%nat ->
  digits_rev g num = digits_rev f num.
Proof.
  induction f as [| f IH]; intros num g H Hg.
  - simpl in H. assert (num = 0) by lia. subst. apply digits_rev_zero.
  - destruct g as [| g]; [lia |]. simpl.
    destruct (num =? 0); [reflexivity |].
    f_equal. apply IH; [now apply div10_bound | lia].
Qed.

Lemma digits_rev_length f : forall num, (length (digits_rev f num) <= f)%nat.
Proof.
  induction f as [| f IH]; intros num; simpl; [lia |].
  destruct (num =? 0); simpl; [lia |]. specialize (IH (num / 10)). lia.
Qed.

Lemma digits_rev_nonempty f num :
  0 < num -> (0 < f)%nat -> (0 < length (digits_rev f num))%nat.
Proof.
  intros Hn Hf. destruct f as [| f]; [lia |]. simpl.
  destruct (Z.eqb_spec num 0); [lia |]. simpl. lia.
Qed.

Lemma digits_rev_chars f : forall num c,
  0 <= num -> In c (digits_rev f num) -> 49 <= c + 1 <= 58.
Proof.
  induction f as [| f IH]; intros num c Hn Hc; simpl in Hc; [contradiction |].
  destruct (num =? 0); [contradiction |].
  destruct Hc as [<- | Hc].
  - pose proof (Z.mod_pos_bound num 10). lia.
  - apply (IH (num / 10)); [apply Z.div_pos; lia | exact Hc].
Qed.

Lemma parse_decimal_snoc l c :
  parse_decimal (l ++ [c]) = parse_decimal l * 10 + (c - 48).
Proof. unfold parse_decimal. now rewrite fold_left_app. Qed.

Lemma parse_digits_rev f : forall num,
  0 <= num < 10 ^ Z.of_nat f -> parse_decimal (rev (digits_rev f num)) = num.
Proof.
  induction f as [| f IH]; intros num H.
  - simpl in *. unfold parse_decimal. simpl. lia.
  - simpl. destruct (Z.eqb_spec num 0) as [-> | Hz]; [reflexivity |].
    simpl. rewrite parse_decimal_snoc, IH by now apply div10_bound.
    pose proof (Z.div_mod num 10). lia.
Qed.

(** The leading digit of a positive number is not the zero digit. *)
Lemma digits_rev_last f : forall num,
  0 < num < 10 ^ Z.of_nat f -> last (digits_rev f num) 0 <> 48.
Proof.
  induction f as [| f IH]; intros num H.
  - simpl in H. lia.
  - simpl. destruct (Z.eqb_spec num 0); [lia |].
    destruct (Z.eq_dec (num / 10) 0) as [E | E].
    + rewrite E, digits_rev_zero. simpl.
      pose proof (Z.div_mod num 10). lia.
    + assert (Hq : 0 < num / 10 < 10 ^ Z.of_nat f).
      { pose proof (div10_bound f num). lia. }
      specialize (IH _ Hq).
      destruct (digits_rev f (num / 10)) eqn:Ed.
      * destruct f; simpl in Ed; [simpl in Hq; lia |].
        destruct (Z.eqb_spec (num / 10) 0); [lia | discriminate].
      * exact IH.
Qed.

(** ** [digit_count], [itoa], [strlen] *)

Lemma digit_count_loop_spec f : forall num count,
  0 <= num < 10 ^ Z.of_nat f -> 0 <= count ->
  count + Z.of_nat (length (digits_rev f num)) < 4294967296 ->
  digit_count_loop (S f) num count =
  Some (count + Z.of_nat (length (digits_rev f num))).
Proof.
  induction f as [| f IH]; intros num count H Hc Hb.
  - simpl in *. assert (num = 0) by lia. subst. simpl. f_equal. lia.
  - change (digit_count_loop (S (S f)) num count)
      with (if 0 <? num
            then digit_count_loop (S f) (num / 10) (u32 (count + 1))
            else Some count).
    simpl digits_rev in *.
    destruct (Z.ltb_spec 0 num) as [Hp | Hp].
    + assert (E0 : (num =? 0) = false) by (apply Z.eqb_neq; lia).
      rewrite E0 in *. simpl length in *.
      rewrite u32_small by lia.
      rewrite IH; [| now apply div10_bound | lia | lia].
      f_equal. lia.
    + assert (num = 0) by lia. subst. simpl. f_equal. lia.
Qed.

Lemma itoa_loop_spec f : forall num index number m,
  0 <= num < 10 ^ Z.of_nat f ->
  0 <= index < 4294967296 ->
  Z.of_nat (length (digits_rev f num)) <= index + 1 ->
  exists m',
    itoa_loop (S f) num index number m = Some m' /\
    (forall k, (k < length (digits_rev f num))%nat ->
       load8 m' (number + (index - Z.of_nat k)) = nth k (digits_rev f num) 0) /\
    (forall a,
       (forall k, (k < length (digits_rev f num))%nat ->
          u32 a <> u32 (number + (index - Z.of_nat k))) ->
       load8 m' a = load8 m a).
Proof.
  induction f as [| f IH]; intros num index number m H Hi Hl.
  - simpl in H. assert (num = 0) by lia. subst. exists m. simpl.
    repeat split; intros; try lia; reflexivity.
  - change (itoa_loop (S (S f)) num index number m)
      with (if num =? 0 then Some m
            else itoa_loop (S f) (num / 10) (u32 (index - 1)) number
                   (store8 m (number + index) (num mod 10 + 48))).
    simpl digits_rev in *.
    destruct (Z.eqb_spec num 0) as [-> | Hz].
    + exists m. simpl. repeat split; intros; try lia; reflexivity.
    + simpl length in *.
      set (ds := digits_rev f (num / 10)) in *.
      set (m1 := store8 m (number + index) (num mod 10 + 48)).
      assert (Hidx : ds <> [] -> u32 (index - 1) = index - 1).
      { intros Hne. apply u32_small.
        destruct ds; [contradiction | simpl in Hl; lia]. }
      destruct (IH (num / 10) (u32 (index - 1)) number m1) as (m' & E & Hd & Hf).
      { now apply div10_bound. }
      { apply u32_range. }
      { fold ds. destruct ds as [| d ds'] eqn:Eds.
        - simpl. pose proof (u32_range (index - 1)). lia.
        - rewrite Hidx by discriminate. simpl length in *. lia. }
      fold ds in Hd, Hf.
      assert (Hpos : forall k, (k < length ds)%nat ->
                number + (u32 (index - 1) - Z.of_nat k)
                = number + (index - Z.of_nat (S k))).
      { intros k Hk. rewrite Hidx; [lia |]. destruct ds; simpl in Hk; [lia | discriminate]. }
      exists m'. split; [exact E |]. split.
      * intros [| k] Hk.
        -- simpl nth. rewrite Z.sub_0_r. rewrite Hf.
           ++ unfold m1. rewrite load8_store8_same.
              apply u8_small. pose proof (Z.mod_pos_bound num 10). lia.
           ++ intros k Hk' C. rewrite Hpos in C by exact Hk'.
              apply u32_add_inj in C; lia.
        -- simpl nth. rewrite <- Hpos by lia. apply Hd. lia.
      * intros a Ha. rewrite Hf.
        -- unfold m1. apply load8_store8_other.
           specialize (Ha O). rewrite Z.sub_0_r in Ha. apply Ha. lia.
        -- intros k Hk. rewrite Hpos by exact Hk. apply Ha. lia.
Qed.

Lemma bytes_at_length m : forall k p, length (bytes_at m p k) = k.
Proof. induction k; intros; simpl; [| rewrite IHk]; reflexivity. Qed.

Lemma bytes_at_nth m : forall k p i,
  (i < k)%nat -> nth i (bytes_at m p k) 0 = load8 m (p + Z.of_nat i).
Proof.
  induction k as [| k IH]; intros p i Hi; [lia |].
  destruct i as [| i]; simpl.
  - now rewrite Z.add_0_r.
  - rewrite IH by lia. f_equal. lia.
Qed.

Lemma bytes_at_eq m k p l :
  length l = k ->
  (forall i, (i < k)%nat -> load8 m (p + Z.of_nat i) = nth i l 0) ->
  bytes_at m p k = l.
Proof.
  intros Hl H. apply (nth_ext _ _ 0 0).
  - now rewrite bytes_at_length.
  - intros i Hi. rewrite bytes_at_length in Hi.
    rewrite bytes_at_nth by exact Hi. now apply H.
Qed.

Lemma u32_below_pow10 num f :
  0 <= num < 4294967296 -> (10 <= f)%nat -> 0 <= num < 10 ^ Z.of_nat f.
Proof.
  intros H Hf. split; [lia |].
  apply Z.lt_le_trans with (10 ^ 10); [lia |].
  apply Z.pow_le_mono_r; lia.
Qed.

Lemma decimal_length num : (1 <= length (decimal num) <= 10)%nat.
Proof.
  unfold decimal. destruct (Z.eqb_spec num 0) as [-> | Hz]; [simpl; lia |].
  rewrite length_rev. pose proof (digits_rev_length 10 num).
  split; [| lia]. simpl. destruct (Z.eqb_spec num 0); [lia |]. simpl. lia.
Qed.

Lemma decimal_chars num c : 0 <= num -> In c (decimal num) -> 48 <= c <= 57.
Proof.
  unfold decimal. intros Hn Hc. destruct (num =? 0).
  - destruct Hc as [<- | []]. lia.
  - apply in_rev in Hc. apply digits_rev_chars in Hc; lia.
Qed.

(** [itoa] leaves the decimal form and its terminator at [number] and
    touches nothing else. *)
Lemma itoa_spec fuel num number m :
  0 <= num < 4294967296 -> (11 <= fuel)%nat ->
  exists m',
    itoa fuel num number m = Some m' /\
    bytes_at m' number (length (decimal num)) = decimal num /\
    load8 m' (number + Z.of_nat (length (decimal num))) = 0 /\
    (forall a,
       (forall k, 0 <= k <= Z.of_nat (length (decimal num)) ->
          u32 a <> u32 (number + k)) ->
       load8 m' a = load8 m a).
Proof.
  intros Hn Hf. destruct fuel as [| f]; [lia |].
  assert (Hf' : (10 <= f)%nat) by lia.
  unfold itoa, digit_count, decimal.
  destruct (Z.eqb_spec num 0) as [-> | Hz].
  - simpl bind. cbv iota beta. simpl andb. cbv iota.
    eexists. split; [reflexivity |]. simpl length. split; [| split].
    + simpl. f_equal. rewrite load8_store8_other.
      * now rewrite load8_store8_same.
      * intro C. replace number with (number + 0) in C at 1 by lia.
        apply u32_add_inj in C; lia.
    + simpl. now rewrite load8_store8_same.
    + intros a Ha. rewrite !load8_store8_other; [reflexivity | |].
      * specialize (Ha 0). rewrite Z.add_0_r in Ha. apply Ha. lia.
      * apply Ha. lia.
  - pose proof (u32_below_pow10 num f Hn Hf') as Hp.
    assert (Efuel : digits_rev f num = digits_rev 10 num).
    { apply digits_rev_fuel; [apply (u32_below_pow10 num 10) |]; lia. }
    pose proof (digits_rev_length 10 num) as Hlen.
    assert (Hpos : (0 < length (digits_rev 10 num))%nat)
      by (apply digits_rev_nonempty; lia).
    rewrite digit_count_loop_spec; [| exact Hp | lia | rewrite Efuel; lia].
    rewrite Efuel. cbn [bind].
    set (ds := digits_rev 10 num) in *.
    set (d := length ds) in *.
    rewrite Z.add_0_l.
    replace (num =? 0) with false by (symmetry; now apply Z.eqb_neq).
    cbn [andb].
    rewrite (u32_small (Z.of_nat d - 1)) by lia.
    destruct (itoa_loop_spec f num (Z.of_nat d - 1) number m)
      as (m1 & E & Hd & Hfr); [exact Hp | lia | rewrite Efuel; fold ds d; lia |].
    rewrite Efuel in Hd, Hfr. fold ds d in Hd, Hfr.
    rewrite E. cbn [bind]. eexists. split; [reflexivity |].
    rewrite length_rev. fold d. split; [| split].
    + apply bytes_at_eq; [now rewrite length_rev |].
      intros i Hi. rewrite load8_store8_other.
      * rewrite rev_nth by (fold d; lia). fold d.
        rewrite <- Hd by lia. f_equal. lia.
      * intro C. apply u32_add_inj in C; lia.
    + now rewrite load8_store8_same.
    + intros a Ha. rewrite load8_store8_other by (apply Ha; lia).
      apply Hfr. intros k Hk. apply Ha. lia.
Qed.

Lemma strlen_loop_spec fuel : forall str m len start,
  0 <= start <= len -> len < 4294967296 ->
  (forall k, start <= k < len -> load8 m (str + k) <> 0) ->
  load8 m (str + len) = 0 ->
  (Z.to_nat (len - start) < fuel)%nat ->
  strlen_loop fuel str start m = Some len.
Proof.
  induction fuel as [| f IH]; intros str m len start Hs Hl Hnz Hz Hf; [lia |].
  simpl. destruct (Z.eqb_spec (load8 m (str + start)) 0) as [E | E].
  - destruct (Z.eq_dec start len) as [-> | Hne]; [reflexivity |].
    exfalso. apply (Hnz start); [lia | exact E].
  - assert (start <> len) by (intro; subst; contradiction).
    rewrite u32_small by lia. apply IH; try lia.
    intros k Hk. apply Hnz. lia.
Qed.

(** ** The display cursor *)

Lemma vga_puts_app l1 l2 st :
  vga_puts (l1 ++ l2) st = vga_puts l2 (vga_puts l1 st).
Proof. unfold vga_puts. apply fold_left_app. Qed.

Lemma vga_puts_cons c l st : vga_puts (c :: l) st = vga_puts l (vga_put c st).
Proof. reflexivity. Qed.

Lemma vga_puts_address l : forall st,
  0 <= vga_address st ->
  vga_address st + 2 * Z.of_nat (length l) < 4294967296 ->
  vga_address (vga_puts l st) = vga_address st + 2 * Z.of_nat (length l).
Proof.
  induction l as [| c l IH]; intros st H0 H1.
  - simpl. lia.
  - rewrite vga_puts_cons. simpl length in H1.
    assert (E : vga_address (vga_put c st) = vga_address st + 2)
      by (simpl; apply u32_small; lia).
    rewrite IH; rewrite E; simpl length; lia.
Qed.

Lemma vga_puts_trace l : forall st,
  0 <= vga_address st ->
  vga_address st + 2 * Z.of_nat (length l) < 4294967296 ->
  trace (vga_puts l st) = trace st ++ cell_events (vga_address st) l.
Proof.
  induction l as [| c l IH]; intros st H0 H1.
  - simpl. now rewrite app_nil_r.
  - rewrite vga_puts_cons. simpl length in H1.
    assert (E : vga_address (vga_put c st) = vga_address st + 2)
      by (simpl; apply u32_small; lia).
    rewrite IH; rewrite E; try lia.
    simpl trace. rewrite <- app_assoc. simpl.
    rewrite (u32_small (vga_address st + 2)) by lia. reflexivity.
Qed.

(** Writing characters changes memory only in the cells passed over. *)
Lemma vga_puts_mem l : forall st a,
  0 <= vga_address st ->
  vga_address st + 2 * Z.of_nat (length l) < 4294967296 ->
  ~ (vga_address st < u32 a <= vga_address st + 2 * Z.of_nat (length l)) ->
  load8 (st_mem (vga_puts l st)) a = load8 (st_mem st) a.
Proof.
  induction l as [| c l IH]; intros st a H0 H1 Ha.
  - reflexivity.
  - rewrite vga_puts_cons. simpl length in H1, Ha.
    assert (E : vga_address (vga_put c st) = vga_address st + 2)
      by (simpl; apply u32_small; lia).
    rewrite IH; rewrite ?E; try lia.
    simpl st_mem. apply load8_store8_other.
    rewrite u32_idem, (u32_small (vga_address st + 2)) by lia. lia.
Qed.

(** ** The number printer *)

Lemma print_loop_spec fuel : forall inner loc len i st,
  strlen inner num_str loc = Some len ->
  0 <= i <= len -> len < 4294967296 ->
  (Z.to_nat (len - i) < fuel)%nat ->
  print_loop fuel inner loc i st =
  Some (vga_puts (bytes_at loc (num_str + i) (Z.to_nat (len - i))) st).
Proof.
  induction fuel as [| f IH]; intros inner loc len i st Hs Hi Hl Hf; [lia |].
  cbn [print_loop]. rewrite Hs. cbn [bind].
  destruct (Z.ltb_spec i len) as [Lt | Ge].
  - rewrite u32_small by lia.
    rewrite (IH inner loc len) by (auto; lia).
    replace (Z.to_nat (len - i)) with (S (Z.to_nat (len - (i + 1)))) by lia.
    cbn [bytes_at]. rewrite vga_puts_cons.
    now rewrite Z.add_assoc.
  - replace (len - i) with 0 by lia. reflexivity.
Qed.

Lemma print_num_spec fuel v loc st :
  0 <= v < 4294967296 -> (11 <= fuel)%nat ->
  exists loc', print_num fuel v loc st = Some (loc', vga_puts (decimal v) st).
Proof.
  intros Hv Hf. unfold print_num.
  destruct (itoa_spec fuel v num_str (memset num_str 0 32 loc) Hv Hf)
    as (loc' & E & Hb & Hz & _).
  pose proof (decimal_length v) as Hlen.
  set (d := length (decimal v)) in *.
  assert (Hs : strlen fuel num_str loc' = Some (Z.of_nat d)).
  { unfold strlen. apply strlen_loop_spec; try lia.
    intros k Hk C.
    assert (Hin : In (load8 loc' (num_str + k)) (decimal v)).
    { rewrite <- Hb. replace k with (Z.of_nat (Z.to_nat k)) by lia.
      rewrite <- bytes_at_nth with (k := d) by lia.
      apply nth_In. rewrite bytes_at_length. lia. }
    apply decimal_chars in Hin; lia. }
  rewrite E. cbn [bind].
  rewrite (print_loop_spec fuel fuel loc' (Z.of_nat d)) by (auto; lia).
  cbn [bind]. exists loc'.
  rewrite Z.add_0_r, Z.sub_0_r, Nat2Z.id, Hb. reflexivity.
Qed.

(** ** The scanner *)

Section ScanOfAMemory.

Variable m : mem.

Lemma first_end_some : forall k i e,
  first_end m k i = Some e ->
  i <= e < i + Z.of_nat k /\ end_match m e = true /\
  (forall j, i <= j < e -> end_match m j = false).
Proof.
  induction k as [| k IH]; intros i e H; [discriminate |].
  cbn [first_end] in H. destruct (end_match m i) eqn:Ei.
  - injection H as <-. repeat split; try lia. exact Ei.
  - apply IH in H. destruct H as (Hr & He & Hb).
    repeat split; try lia; [exact He |].
    intros j Hj. destruct (Z.eq_dec j i) as [-> | Hne]; [exact Ei |].
    apply Hb. lia.
Qed.

Lemma first_end_none : forall k i,
  first_end m k i = None ->
  forall j, i <= j < i + Z.of_nat k -> end_match m j = false.
Proof.
  induction k as [| k IH]; intros i H j Hj; [lia |].
  cbn [first_end] in H. destruct (end_match m i) eqn:Ei; [discriminate |].
  destruct (Z.eq_dec j i) as [-> | Hne]; [exact Ei |].
  apply (IH (i + 1)); [exact H | lia].
Qed.

Lemma first_end_intro : forall k i e,
  i <= e < i + Z.of_nat k -> end_match m e = true ->
  (forall j, i <= j < e -> end_match m j = false) ->
  first_end m k i = Some e.
Proof.
  induction k as [| k IH]; intros i e Hr He Hb; [lia |].
  cbn [first_end]. destruct (Z.eq_dec e i) as [-> | Hne].
  - now rewrite He.
  - rewrite Hb by lia. apply IH; [lia | exact He |].
    intros j Hj. apply Hb. lia.
Qed.

Lemma first_end_none_intro : forall k i,
  (forall j, i <= j < i + Z.of_nat k -> end_match m j = false) ->
  first_end m k i = None.
Proof.
  induction k as [| k IH]; intros i H; [reflexivity |].
  cbn [first_end]. rewrite H by lia. apply IH. intros j Hj. apply H. lia.
Qed.

Lemma last_start_range : forall k i acc,
  last_start m k i acc = acc \/
  i <= last_start m k i acc < i + Z.of_nat k.
Proof.
  induction k as [| k IH]; intros i acc; [now left |].
  cbn [last_start].
  destruct (IH (i + 1) (if start_match m i then i else acc)) as [E | R].
  - rewrite E. destruct (start_match m i); [right; lia | now left].
  - right. lia.
Qed.

Lemma last_start_none : forall k i acc,
  (forall j, i <= j < i + Z.of_nat k -> start_match m j = false) ->
  last_start m k i acc = acc.
Proof.
  induction k as [| k IH]; intros i acc H; [reflexivity |].
  cbn [last_start]. rewrite H by lia. apply IH. intros j Hj. apply H. lia.
Qed.

Lemma last_start_last : forall k i acc s,
  i <= s < i + Z.of_nat k -> start_match m s = true ->
  (forall j, s < j < i + Z.of_nat k -> start_match m j = false) ->
  last_start m k i acc = s.
Proof.
  induction k as [| k IH]; intros i acc s Hr Hs Hb; [lia |].
  cbn [last_start]. destruct (Z.eq_dec s i) as [-> | Hne].
  - rewrite Hs. apply last_start_none. intros j Hj. apply Hb. lia.
  - apply IH; [lia | exact Hs |]. intros j Hj. apply Hb. lia.
Qed.

End ScanOfAMemory.

Lemma start_match_ext m m' i :
  same_image m m' -> 0 <= i <= 65535 -> start_match m i = start_match m' i.
Proof.
  intros H Hi. unfold start_match.
  rewrite !load8_u32, (H i), (H (i + 1)) by lia. reflexivity.
Qed.

Lemma end_match_ext m m' i :
  same_image m m' -> 0 <= i <= 65535 -> end_match m i = end_match m' i.
Proof.
  intros H Hi. unfold end_match.
  rewrite !load8_u32, (H i), (H (i + 1)) by lia. reflexivity.
Qed.

Lemma first_end_ext m m' : same_image m m' -> forall k i,
  0 <= i -> i + Z.of_nat k <= 65536 -> first_end m k i = first_end m' k i.
Proof.
  intros H. induction k as [| k IH]; intros i H0 H1; [reflexivity |].
  cbn [first_end]. rewrite (end_match_ext m m') by (auto; lia).
  rewrite IH by lia. reflexivity.
Qed.

Lemma last_start_ext m m' : same_image m m' -> forall k i acc,
  0 <= i -> i + Z.of_nat k <= 65536 ->
  last_start m k i acc = last_start m' k i acc.
Proof.
  intros H. induction k as [| k IH]; intros i acc H0 H1; [reflexivity |].
  cbn [last_start]. rewrite (start_match_ext m m') by (auto; lia).
  apply IH; lia.
Qed.

Lemma first_end_S m k i :
  first_end m (S k) i =
  if end_match m i then Some i else first_end m k (i + 1).
Proof. reflexivity. Qed.

Lemma last_start_S m k i acc :
  last_start m (S k) i acc =
  last_start m k (i + 1) (if start_match m i then i else acc).
Proof. reflexivity. Qed.

(** The loop in closed form, from any offset [i] with [S k] offsets left
    before the bound. *)
Lemma scan_loop_spec : forall k fuel i ls le st,
  0 <= i -> i + Z.of_nat (S k) = 65536 -> (S k <= fuel)%nat ->
  scan_loop fuel i ls le st =
  Some (match first_end (st_mem st) (S k) i with
        | Some e => (last_start (st_mem st) (Z.to_nat (e - i + 1)) i ls, e, st)
        | None => (last_start (st_mem st) (S k) i ls, le,
                   vga_puts [80; 111; 111; 112] st)
        end).
Proof.
  induction k as [| k IH]; intros fuel i ls le st H0 Hk Hf;
    (destruct fuel as [| f]; [lia |]); cbn [scan_loop];
    rewrite first_end_S.
  - destruct (end_match (st_mem st) i).
    + replace (i - i + 1) with 1 by lia. reflexivity.
    + destruct (Z.leb_spec 65535 i); [reflexivity | lia].
  - destruct (end_match (st_mem st) i).
    + replace (i - i + 1) with 1 by lia. reflexivity.
    + destruct (Z.leb_spec 65535 i); [lia |].
      rewrite u32_small by lia.
      rewrite IH by lia. f_equal.
      destruct (first_end (st_mem st) (S k) (i + 1)) as [e |] eqn:Ee.
      * apply first_end_some in Ee. destruct Ee as (Hr & _).
        replace (Z.to_nat (e - i + 1)) with (S (Z.to_nat (e - (i + 1) + 1)))
          by lia.
        now rewrite last_start_S.
      * now rewrite (last_start_S _ (S k)).
Qed.

Lemma scan_bound_S : scan_bound = S (Z.to_nat 65535).
Proof. unfold scan_bound. lia. Qed.

Lemma scan_result_range image :
  0 <= scan_start image <= 65535 /\ 0 <= scan_end image <= 65535 /\
  (scan_start image <= scan_end image \/ scan_end image = 0) /\
  (scan_token image = [] \/ scan_token image = [80; 111; 111; 112]).
Proof.
  unfold scan_start, scan_end, scan_token, scan_result.
  destruct (first_end image scan_bound 0) as [e |] eqn:Ee; cbn [fst snd].
  - apply first_end_some in Ee. destruct Ee as (Hr & _).
    rewrite scan_bound_S in Hr.
    destruct (last_start_range image (Z.to_nat (e + 1)) 0 0) as [-> | R];
      repeat split; try lia; now left.
  - destruct (last_start_range image scan_bound 0 0) as [-> | R];
      rewrite ?scan_bound_S in *; repeat split; try lia; now right.
Qed.

(** What the scan loop of [cmain] returns, whatever has been written to the
    display before it. *)
Lemma scan_loop_result fuel image st :
  (scan_bound <= fuel)%nat -> same_image (st_mem st) image ->
  scan_loop fuel 0 0 0 st =
  Some (scan_start image, scan_end image, vga_puts (scan_token image) st).
Proof.
  intros Hf Hsame. rewrite scan_bound_S in Hf.
  rewrite (scan_loop_spec (Z.to_nat 65535)) by lia.
  rewrite <- scan_bound_S.
  unfold scan_start, scan_end, scan_token, scan_result.
  rewrite (first_end_ext _ _ Hsame) by (rewrite ?scan_bound_S; lia).
  f_equal.
  destruct (first_end image scan_bound 0) as [e |] eqn:Ee; cbn [fst snd].
  - apply first_end_some in Ee. destruct Ee as (Hr & _).
    rewrite scan_bound_S in Hr.
    rewrite Z.sub_0_r.
    rewrite (last_start_ext _ _ Hsame) by lia. reflexivity.
  - rewrite (last_start_ext _ _ Hsame) by (rewrite ?scan_bound_S; lia).
    reflexivity.
Qed.

(** Display writes of at most a screenful of cells from the base leave the
    scanned part of the image as it was. *)
Lemma vga_puts_same_image l image :
  (length l <= 100)%nat ->
  same_image (st_mem (vga_puts l (boot image))) image.
Proof.
  intros Hl a Ha.
  rewrite vga_puts_mem; unfold boot, vga_base; cbn [vga_address st_mem];
    [reflexivity | lia | lia |].
  rewrite (u32_small a) by lia. lia.
Qed.

(** ** [cmain] in closed form *)

Lemma cmain_spec fuel test_fn addr frame image :
  0 <= addr < 4294967296 -> (scan_bound <= fuel)%nat ->
  cmain fuel test_fn addr frame (boot image) =
  Some (relocate test_fn (scan_start image) (scan_end image)
          (vga_puts (diagnostics addr image) (boot image))).
Proof.
  intros Ha Hf. unfold cmain, diagnostics.
  pose proof scan_bound_S as Hsb.
  destruct (print_num_spec fuel addr frame (boot image) Ha) as (loc1 & E1);
    [lia |].
  rewrite E1. cbn [bind].
  pose proof (decimal_length addr) as Hla.
  rewrite (scan_loop_result fuel image)
    by (auto; apply vga_puts_same_image; lia).
  cbn [bind].
  destruct (scan_result_range image) as (Hls & Hle & _ & Htok).
  unfold print_bounds.
  match goal with
  | |- context [print_num fuel (scan_start image) loc1 ?s] =>
      destruct (print_num_spec fuel (scan_start image) loc1 s)
        as (loc2 & E2); [lia | lia |];
      rewrite E2; cbn [bind]
  end.
  match goal with
  | |- context [print_num fuel (scan_end image) loc2 ?s] =>
      destruct (print_num_spec fuel (scan_end image) loc2 s)
        as (loc3 & E3); [lia | lia |];
      rewrite E3; cbn [bind]
  end.
  rewrite !vga_puts_app. reflexivity.
Qed.

(** ** The trace of a run *)

Lemma display_text_cells l : forall p t,
  display_text (cell_events p l ++ t) = map u8 l ++ display_text t.
Proof.
  unfold display_text.
  induction l as [| c l IH]; intros p t; simpl; [reflexivity |].
  now rewrite IH.
Qed.

Lemma non_vga_cells l : forall p t,
  non_vga (cell_events p l ++ t) = non_vga t.
Proof. induction l as [| c l IH]; intros p t; simpl; auto. Qed.

Lemma vga_writes_cells_nth l : forall p t k,
  (k < length l)%nat ->
  fst (nth k (vga_writes (cell_events p l ++ t)) (0, 0))
  = p + 2 * (Z.of_nat k + 1).
Proof.
  induction l as [| c l IH]; intros p t k Hk; simpl in Hk; [lia |].
  destruct k as [| k]; simpl; [lia |].
  rewrite IH by lia. lia.
Qed.

Lemma vga_writes_cells_length l : forall p,
  length (vga_writes (cell_events p l)) = length l.
Proof. induction l as [| c l IH]; intros p; simpl; auto. Qed.

Lemma map_u8_chars l :
  (forall c, In c l -> 0 <= c < 256) -> map u8 l = l.
Proof.
  induction l as [| c l IH]; intros H; simpl; [reflexivity |].
  rewrite u8_small by (apply H; now left).
  f_equal. apply IH. intros; apply H; now right.
Qed.

Lemma diagnostics_facts addr image :
  0 <= addr ->
  (length (diagnostics addr image) <= 44)%nat /\
  (forall c, In c (diagnostics addr image) -> 0 <= c < 256).
Proof.
  intros Ha. unfold diagnostics.
  destruct (scan_result_range image) as (Hls & Hle & _ & Htok).
  pose proof (decimal_length addr).
  pose proof (decimal_length (scan_start image)).
  pose proof (decimal_length (scan_end image)).
  split.
  - rewrite !length_app. destruct Htok as [-> | ->]; simpl length; lia.
  - intros c Hc. rewrite !in_app_iff in Hc.
    assert (Hd : forall v, 0 <= v -> In c (decimal v) -> 0 <= c < 256)
      by (intros v Hv Hin; apply decimal_chars in Hin; lia).
    destruct Hc as [Hc | [Hc | [Hc | [Hc | [Hc | [Hc | [Hc | Hc]]]]]]];
      try (eapply Hd; [| exact Hc]; lia);
      try (destruct Htok as [E | E]; rewrite E in Hc);
      simpl in Hc; intuition lia.
Qed.

(** The outcome of [cmain] on an image, field by field. *)
Lemma cmain_outcome fuel test_fn addr frame image :
  0 <= addr < 4294967296 -> (scan_bound <= fuel)%nat ->
  exists out,
    cmain fuel test_fn addr frame (boot image) = Some out /\
    loader_start out = scan_start image /\
    loader_end out = scan_end image /\
    loader_size out = u32 (scan_end image - scan_start image) /\
    trace (final out)
    = cell_events vga_base (diagnostics addr image)
      ++ [EvMemcpy (65536 + scan_start image) (scan_start image)
            (u32 (scan_end image - scan_start image));
          EvCall (u32 (test_fn + 65536)); EvSwitchToRust 65536] /\
    vga_address (final out)
    = vga_base + 2 * Z.of_nat (length (diagnostics addr image)) /\
    st_mem (final out)
    = memcpy (65536 + scan_start image) (scan_start image)
        (u32 (scan_end image - scan_start image))
        (st_mem (vga_puts (diagnostics addr image) (boot image))).
Proof.
  intros Ha Hf.
  pose proof (cmain_spec fuel test_fn addr frame image Ha Hf) as E.
  destruct (scan_result_range image) as (Hls & Hle & _).
  pose proof (diagnostics_facts addr image) as (Hlen & _); [lia |].
  assert (HT : trace (vga_puts (diagnostics addr image) (boot image))
               = cell_events vga_base (diagnostics addr image)).
  { rewrite vga_puts_trace; unfold boot; cbn [vga_address trace];
      [reflexivity | | ]; unfold vga_base; lia. }
  assert (HA : vga_address (vga_puts (diagnostics addr image) (boot image))
               = vga_base + 2 * Z.of_nat (length (diagnostics addr image))).
  { rewrite vga_puts_address; unfold boot; cbn [vga_address];
      [reflexivity | | ]; unfold vga_base; lia. }
  remember (diagnostics addr image) as text eqn:Etext.
  remember (vga_puts text (boot image)) as X eqn:EX.
  remember (scan_start image) as ls eqn:Els.
  remember (scan_end image) as le eqn:Ele.
  clear Etext EX Els Ele.
  eexists. split; [exact E |].
  unfold relocate, emit.
  cbn [loader_start loader_end loader_size final trace vga_address st_mem].
  rewrite (u32_small (65536 + ls)) by lia.
  rewrite HT, HA, <- !app_assoc.
  repeat split.
Qed.

(** ** Checking an image by evaluation *)

Lemma all_from_spec f : forall k i,
  all_from f k i = true ->
  forall j, i <= j < i + Z.of_nat k -> f j = true.
Proof.
  induction k as [| k IH]; intros i H j Hj; [lia |].
  cbn [all_from] in H. apply andb_true_iff in H. destruct H as [H0 H1].
  destruct (Z.eq_dec j i) as [-> | Hne]; [exact H0 |].
  apply (IH (i + 1)); [exact H1 | lia].
Qed.

Lemma none_from f k i :
  all_from (fun j => negb (f j)) k i = true ->
  forall j, i <= j < i + Z.of_nat k -> f j = false.
Proof.
  intros H j Hj. apply negb_true_iff.
  exact (all_from_spec _ k i H j Hj).
Qed.

(** ** The scan result from the sentinels of the image *)

Lemma end_not_start m i : end_match m i = true -> start_match m i = false.
Proof.
  unfold end_match, start_match. intros H.
  destruct (Z.eqb_spec (load8 m i) 33) as [E | E];
    destruct (Z.eqb_spec (load8 m i) 115) as [E' | E']; try reflexivity;
    rewrite ?E, ?E' in H; simpl in H; discriminate.
Qed.

Lemma scan_found image e :
  0 <= e <= 65535 -> end_match image e = true ->
  (forall j, 0 <= j < e -> end_match image j = false) ->
  scan_end image = e /\ scan_token image = [] /\
  scan_start image = last_start image (Z.to_nat (e + 1)) 0 0.
Proof.
  intros He Hm Hb. unfold scan_end, scan_token, scan_start, scan_result.
  rewrite (first_end_intro image scan_bound 0 e);
    [cbn [fst snd]; auto | rewrite scan_bound_S; lia | exact Hm | exact Hb].
Qed.

Lemma scan_abort image :
  (forall j, 0 <= j <= 65535 -> end_match image j = false) ->
  scan_end image = 0 /\ scan_token image = [80; 111; 111; 112] /\
  scan_start image = last_start image scan_bound 0 0.
Proof.
  intros Hb. unfold scan_end, scan_token, scan_start, scan_result.
  rewrite (first_end_none_intro image scan_bound 0); [cbn [fst snd]; auto |].
  intros j Hj. apply Hb. rewrite scan_bound_S in Hj. lia.
Qed.

Lemma scan_loop_starved : forall fuel i ls le st,
  0 <= i -> i + Z.of_nat fuel <= 65535 ->
  (forall j, i <= j < i + Z.of_nat fuel -> end_match (st_mem st) j = false) ->
  scan_loop fuel i ls le st = None.
Proof.
  induction fuel as [| f IH]; intros i ls le st H0 H1 Hb; [reflexivity |].
  cbn [scan_loop]. rewrite Hb by lia.
  destruct (Z.leb_spec 65535 i); [lia |].
  rewrite u32_small by lia. apply IH; try lia.
  intros j Hj. apply Hb. lia.
Qed.

Lemma same_image_refl m : same_image m m.
Proof. intros a _. reflexivity. Qed.

(** ** The scan of the example images, by evaluation *)

Lemma scan_result_start_only :
  scan_result image_start_only = (5, 0, [80; 111; 111; 112]).
Proof. by_evaluation. Qed.

Lemma scan_result_4_12 : scan_result image_4_12 = (4, 12, []).
Proof. by_evaluation. Qed.

Lemma scan_bounds_eq image :
  scan_start image = fst (fst (scan_result image)) /\
  scan_end image = snd (fst (scan_result image)).
Proof. split; reflexivity. Qed.

Lemma scan_bounds_start_only :
  scan_start image_start_only = 5 /\ scan_end image_start_only = 0.
Proof.
  destruct (scan_bounds_eq image_start_only) as (-> & ->).
  rewrite scan_result_start_only. split; reflexivity.
Qed.

Lemma scan_bounds_4_12 :
  scan_start image_4_12 = 4 /\ scan_end image_4_12 = 12.
Proof.
  destruct (scan_bounds_eq image_4_12) as (-> & ->).
  rewrite scan_result_4_12. split; reflexivity.
Qed.

Lemma no_end_in_blank j :
  0 <= j <= 65535 -> end_match image_blank j = false.
Proof.
  intros Hj. apply (none_from (end_match image_blank) scan_bound 0);
    [by_evaluation | rewrite scan_bound_S; lia].
Qed.

Lemma no_start_in_blank j :
  0 <= j <= 65535 -> start_match image_blank j = false.
Proof.
  intros Hj. apply (none_from (start_match image_blank) scan_bound 0);
    [by_evaluation | rewrite scan_bound_S; lia].
Qed.

(** * The claims *)

(** ** The sentinel scanner *)

(** C2.  When the end sentinel first matches at offset [e] within the scan
    bound, the scanner returns [loader_end = e] and [loader_start = s], the
    last offset before [e] at which the start sentinel matched: start
    matches before [s] are overwritten, the scan stops at [e] whatever
    follows, and nothing is written to the display. *)
Theorem scan_stops_at_first_end fuel st s e :
  (scan_bound <= fuel)%nat ->
  0 <= s <= e -> e <= 65535 ->
  end_match (st_mem st) e = true ->
  (forall j, 0 <= j < e -> end_match (st_mem st) j = false) ->
  start_match (st_mem st) s = true ->
  (forall j, s < j < e -> start_match (st_mem st) j = false) ->
  scan_loop fuel 0 0 0 st = Some (s, e, st).
Proof.
  intros Hf Hs He Hend Hfirst Hstart Hlast.
  rewrite (scan_loop_result fuel (st_mem st) st)
    by (auto using same_image_refl).
  destruct (scan_found (st_mem st) e) as (E1 & E2 & E3); auto; [lia |].
  rewrite E1, E2, E3.
  rewrite (last_start_last (st_mem st) (Z.to_nat (e + 1)) 0 0 s);
    [reflexivity | | exact Hstart |].
  - assert (s <> e).
    { intro C. subst s. apply end_not_start in Hend. congruence. }
    lia.
  - intros j Hj. destruct (Z.eq_dec j e) as [-> | Hne].
    + now apply end_not_start.
    + apply Hlast. lia.
Qed.

(** Start sentinel at 10 (after an earlier one at 3), end sentinel at 90
    (before a later one at 200): the scan yields (10, 90). *)
Lemma scan_stops_at_first_end_witness :
  scan_loop scan_bound 0 0 0 (boot image_10_90)
  = Some (10, 90, boot image_10_90).
Proof.
  apply (scan_stops_at_first_end scan_bound (boot image_10_90) 10 90).
  - apply Nat.le_refl.
  - lia.
  - lia.
  - by_evaluation.
  - apply (none_from (end_match image_10_90) (Z.to_nat 90) 0).
    by_evaluation.
  - by_evaluation.
  - intros j Hj.
    apply (none_from (start_match image_10_90) (Z.to_nat 79) 11);
      [by_evaluation | lia].
Defined.

(** C4.  An end sentinel met before any start sentinel is accepted: the
    scanner returns [loader_start = 0] with the end offset and writes
    nothing to the display. *)
Theorem scan_end_before_start fuel st e :
  (scan_bound <= fuel)%nat ->
  0 <= e <= 65535 ->
  end_match (st_mem st) e = true ->
  (forall j, 0 <= j < e -> end_match (st_mem st) j = false) ->
  (forall j, 0 <= j < e -> start_match (st_mem st) j = false) ->
  scan_loop fuel 0 0 0 st = Some (0, e, st).
Proof.
  intros Hf He Hend Hfirst Hnone.
  rewrite (scan_loop_result fuel (st_mem st) st)
    by (auto using same_image_refl).
  destruct (scan_found (st_mem st) e) as (E1 & E2 & E3); auto.
  rewrite E1, E2, E3.
  rewrite last_start_none; [reflexivity |].
  intros j Hj. destruct (Z.eq_dec j e) as [-> | Hne].
  - now apply end_not_start.
  - apply Hnone. lia.
Qed.

(** The image whose only sentinel is an end sentinel at offset 50 scans
    to (0, 50). *)
Lemma scan_end_before_start_witness :
  scan_loop scan_bound 0 0 0 (boot image_50) = Some (0, 50, boot image_50).
Proof.
  apply (scan_end_before_start scan_bound (boot image_50) 50).
  - apply Nat.le_refl.
  - lia.
  - by_evaluation.
  - apply (none_from (end_match image_50) (Z.to_nat 50) 0).
    by_evaluation.
  - apply (none_from (start_match image_50) (Z.to_nat 50) 0).
    by_evaluation.
Defined.

(** C10.  The bound is tested after the sentinel tests of an iteration, so
    offset 0xFFFF is examined too: an end sentinel there ends the scan with
    [loader_end = 0xFFFF] and without the token; a start sentinel there is
    recorded even when the scan then gives up; and 0xFFFF iterations are
    not enough to reach either [break]. *)
Theorem scan_examines_offset_at_bound fuel st :
  (scan_bound <= fuel)%nat ->
  (forall j, 0 <= j < 65535 -> end_match (st_mem st) j = false) ->
  (end_match (st_mem st) 65535 = true ->
   exists ls, scan_loop fuel 0 0 0 st = Some (ls, 65535, st)) /\
  (end_match (st_mem st) 65535 = false ->
   start_match (st_mem st) 65535 = true ->
   scan_loop fuel 0 0 0 st
   = Some (65535, 0, vga_puts [80; 111; 111; 112] st)) /\
  scan_loop (Z.to_nat 65535) 0 0 0 st = None.
Proof.
  intros Hf Hb. split; [| split].
  - intros Hend.
    rewrite (scan_loop_result fuel (st_mem st) st)
      by (auto using same_image_refl).
    destruct (scan_found (st_mem st) 65535) as (E1 & E2 & E3); auto; [lia |].
    rewrite E1, E2. eexists. reflexivity.
  - intros Hend Hstart.
    rewrite (scan_loop_result fuel (st_mem st) st)
      by (auto using same_image_refl).
    destruct (scan_abort (st_mem st)) as (E1 & E2 & E3).
    { intros j Hj. destruct (Z.eq_dec j 65535) as [-> | Hne]; [exact Hend |].
      apply Hb. lia. }
    rewrite E1, E2, E3.
    rewrite (last_start_last (st_mem st) scan_bound 0 0 65535);
      [reflexivity | | exact Hstart |]; rewrite scan_bound_S; lia.
  - apply scan_loop_starved; [lia | lia |].
    intros j Hj. apply Hb. lia.
Qed.

(** An end sentinel at offset 0xFFFF exactly, and a start sentinel there. *)
Lemma scan_examines_offset_at_bound_witness :
  (exists ls, scan_loop scan_bound 0 0 0 (boot image_end_at_bound)
              = Some (ls, 65535, boot image_end_at_bound)) /\
  scan_loop scan_bound 0 0 0 (boot image_start_at_bound)
  = Some (65535, 0, vga_puts [80; 111; 111; 112] (boot image_start_at_bound)) /\
  scan_loop (Z.to_nat 65535) 0 0 0 (boot image_end_at_bound) = None.
Proof.
  assert (H1 : forall j, 0 <= j < 65535 ->
                end_match (st_mem (boot image_end_at_bound)) j = false).
  { intros j Hj.
    apply (none_from (end_match image_end_at_bound) (Z.to_nat 65535) 0);
      [by_evaluation | lia]. }
  assert (H2 : forall j, 0 <= j < 65535 ->
                end_match (st_mem (boot image_start_at_bound)) j = false).
  { intros j Hj.
    apply (none_from (end_match image_start_at_bound) (Z.to_nat 65535) 0);
      [by_evaluation | lia]. }
  destruct (scan_examines_offset_at_bound scan_bound
              (boot image_end_at_bound) (Nat.le_refl _) H1) as (A & _ & C).
  destruct (scan_examines_offset_at_bound scan_bound
              (boot image_start_at_bound) (Nat.le_refl _) H2) as (_ & B & _).
  split; [| split].
  - apply A. by_evaluation.
  - apply B; by_evaluation.
  - exact C.
Defined.

(** ** The stage from entry to handoff *)

Lemma relocated_bytes image l ls n :
  (length l <= 100)%nat -> 0 <= ls -> 0 <= n -> ls + n <= 65536 ->
  bytes_at (memcpy (65536 + ls) ls n (st_mem (vga_puts l (boot image))))
    (65536 + ls) (Z.to_nat n)
  = bytes_at image ls (Z.to_nat n).
Proof.
  intros Hl Hls Hn Hle.
  apply bytes_at_eq; [apply bytes_at_length |].
  intros i Hi. rewrite bytes_at_nth by exact Hi.
  unfold memcpy. rewrite memcpy_loop_disjoint; try lia.
  - apply vga_puts_same_image; lia.
  - intros a b Ha Hb. rewrite !u32_small by lia. lia.
Qed.

(** C1.  End to end, for an image with the start sentinel at offset 4, the
    end sentinel first at offset 12 and no start sentinel in between: the
    scan yields (4, 12), [memcpy] is asked for 8 bytes from 4 to 0x10004
    and delivers them, and the display shows the entry argument followed
    by the text "S: 4  E: 12  ". *)
Theorem end_to_end_4_12 fuel test_fn addr frame image :
  0 <= addr < 4294967296 -> (scan_bound <= fuel)%nat ->
  start_match image 4 = true ->
  end_match image 12 = true ->
  (forall j, 0 <= j < 12 -> end_match image j = false) ->
  (forall j, 4 < j < 12 -> start_match image j = false) ->
  exists out,
    cmain fuel test_fn addr frame (boot image) = Some out /\
    (loader_start out, loader_end out) = (4, 12) /\
    loader_size out = 8 /\
    non_vga (trace (final out))
    = [EvMemcpy 65540 4 8; EvCall (u32 (test_fn + 65536));
       EvSwitchToRust 65536] /\
    bytes_at (st_mem (final out)) 65540 8 = bytes_at image 4 8 /\
    display_text (trace (final out))
    = decimal addr ++ chars_of "S: 4  E: 12  ".
Proof.
  intros Ha Hf Hs He Hfirst Hlast.
  destruct (cmain_outcome fuel test_fn addr frame image Ha Hf)
    as (out & E & Els & Ele & Esz & Etr & _ & Emem).
  destruct (diagnostics_facts addr image) as (Hlen & Hch); [lia |].
  destruct (scan_found image 12) as (E1 & E2 & E3); auto; [lia |].
  assert (E4 : scan_start image = 4).
  { rewrite E3. apply last_start_last; [lia | exact Hs |].
    intros j Hj. destruct (Z.eq_dec j 12) as [-> | Hne].
    - now apply end_not_start.
    - apply Hlast. lia. }
  exists out. split; [exact E |].
  rewrite Els, Ele, Esz, Etr, Emem.
  rewrite non_vga_cells, display_text_cells, app_nil_r.
  rewrite map_u8_chars by exact Hch.
  replace (bytes_at image 4 8) with (bytes_at image 4 (Z.to_nat 8))
    by reflexivity.
  replace 8%nat with (Z.to_nat 8) by reflexivity.
  pose proof (relocated_bytes image (diagnostics addr image) 4 8) as Hb.
  unfold diagnostics in *. rewrite E1, E2, E4 in *.
  repeat split. apply Hb; lia.
Qed.

(** The stage run on an image with just these two sentinels. *)
Lemma end_to_end_4_12_witness :
  exists out,
    cmain scan_bound 0 305419896 image_blank (boot image_4_12) = Some out /\
    (loader_start out, loader_end out) = (4, 12) /\
    loader_size out = 8 /\
    non_vga (trace (final out))
    = [EvMemcpy 65540 4 8; EvCall (u32 (0 + 65536)); EvSwitchToRust 65536] /\
    bytes_at (st_mem (final out)) 65540 8 = bytes_at image_4_12 4 8 /\
    display_text (trace (final out))
    = decimal 305419896 ++ chars_of "S: 4  E: 12  ".
Proof.
  apply (end_to_end_4_12 scan_bound 0 305419896 image_blank image_4_12).
  - lia.
  - apply Nat.le_refl.
  - by_evaluation.
  - by_evaluation.
  - apply (none_from (end_match image_4_12) (Z.to_nat 12) 0).
    by_evaluation.
  - intros j Hj.
    apply (none_from (start_match image_4_12) (Z.to_nat 7) 5);
      [by_evaluation | lia].
Defined.

(** C3.  When no end sentinel matches up to the scan bound, the scan gives
    up with the token "Poop" on the display, and [cmain] goes on all the
    same: it prints the bounds, with [loader_end] still 0 and
    [loader_start] the last start match (0 when there was none), calls
    [memcpy] with them and hands over. *)
Theorem scan_bound_hit_falls_through fuel test_fn addr frame image :
  0 <= addr < 4294967296 -> (scan_bound <= fuel)%nat ->
  (forall j, 0 <= j <= 65535 -> end_match image j = false) ->
  exists out,
    cmain fuel test_fn addr frame (boot image) = Some out /\
    loader_end out = 0 /\
    loader_start out = last_start image scan_bound 0 0 /\
    ((forall j, 0 <= j <= 65535 -> start_match image j = false) ->
     loader_start out = 0 /\ loader_size out = 0) /\
    display_text (trace (final out))
    = decimal addr ++ chars_of "Poop" ++ chars_of "S: "
      ++ decimal (loader_start out) ++ chars_of "  E: 0  " /\
    non_vga (trace (final out))
    = [EvMemcpy (65536 + loader_start out) (loader_start out)
         (u32 (0 - loader_start out));
       EvCall (u32 (test_fn + 65536)); EvSwitchToRust 65536].
Proof.
  intros Ha Hf Hnone.
  destruct (cmain_outcome fuel test_fn addr frame image Ha Hf)
    as (out & E & Els & Ele & Esz & Etr & _ & _).
  destruct (diagnostics_facts addr image) as (_ & Hch); [lia |].
  destruct (scan_abort image Hnone) as (E1 & E2 & E3).
  exists out. split; [exact E |].
  rewrite Etr, non_vga_cells, display_text_cells, app_nil_r.
  rewrite map_u8_chars by exact Hch.
  unfold diagnostics. rewrite E2.
  rewrite E1 in *. rewrite <- Els in *. clear Etr Hch.
  split; [exact Ele |]. split; [exact E3 |]. split.
  - intros Hs.
    assert (Z0 : loader_start out = 0).
    { rewrite E3. apply last_start_none. intros j Hj. apply Hs.
      rewrite scan_bound_S in Hj. lia. }
    rewrite Z0 in Esz. split; [exact Z0 | exact Esz].
  - split; reflexivity.
Qed.

(** The stage on an image without any sentinel: bounds (0, 0), an empty
    copy, and the handoff. *)
Lemma scan_bound_hit_falls_through_witness :
  exists out,
    cmain scan_bound 0 7 image_blank (boot image_blank) = Some out /\
    loader_end out = 0 /\ loader_start out = 0 /\ loader_size out = 0 /\
    display_text (trace (final out))
    = decimal 7 ++ chars_of "Poop" ++ chars_of "S: "
      ++ decimal (loader_start out) ++ chars_of "  E: 0  " /\
    non_vga (trace (final out))
    = [EvMemcpy (65536 + loader_start out) (loader_start out)
         (u32 (0 - loader_start out));
       EvCall (u32 (0 + 65536)); EvSwitchToRust 65536].
Proof.
  destruct (scan_bound_hit_falls_through scan_bound 0 7 image_blank
              image_blank) as (out & E & He & _ & Hz & Ht & Hn);
    [lia | apply Nat.le_refl | exact no_end_in_blank |].
  destruct (Hz no_start_in_blank) as (Z0 & Z1).
  exists out.
  exact (conj E (conj He (conj Z0 (conj Z1 (conj Ht Hn))))).
Defined.

(** ** The relocator *)

(** C5.  The copy length is the 32-bit difference of the bounds, computed
    and passed on without any test: [memcpy] is asked for exactly
    [(loader_end - loader_start) mod 2^32] bytes with destination
    [0x10000 + loader_start], and when [loader_end < loader_start] that
    is [2^32 + loader_end - loader_start], more than 2^32 - 0x10000. *)
Theorem copy_length_wraps fuel test_fn addr frame image :
  0 <= addr < 4294967296 -> (scan_bound <= fuel)%nat ->
  exists out,
    cmain fuel test_fn addr frame (boot image) = Some out /\
    loader_size out = (loader_end out - loader_start out) mod 4294967296 /\
    non_vga (trace (final out))
    = [EvMemcpy (65536 + loader_start out) (loader_start out)
         (loader_size out);
       EvCall (u32 (test_fn + 65536)); EvSwitchToRust 65536] /\
    st_mem (final out)
    = memcpy (65536 + loader_start out) (loader_start out) (loader_size out)
        (st_mem (vga_puts (diagnostics addr image) (boot image))) /\
    (loader_end out < loader_start out ->
     loader_size out = 4294967296 + loader_end out - loader_start out /\
     4294967296 - 65536 < loader_size out).
Proof.
  intros Ha Hf.
  destruct (cmain_outcome fuel test_fn addr frame image Ha Hf)
    as (out & E & Els & Ele & Esz & Etr & _ & Emem).
  destruct (scan_result_range image) as (Hls & Hle & _).
  exists out. split; [exact E |].
  rewrite Etr, non_vga_cells, Emem, Esz, Els, Ele.
  split; [reflexivity |]. split; [reflexivity |]. split; [reflexivity |].
  intros Hlt. unfold u32.
  rewrite <- (Z_mod_plus_full _ 1), Z.mod_small; lia.
Qed.

(** A start sentinel at offset 5 and no end sentinel: 2^32 - 5 bytes. *)
Lemma copy_length_wraps_witness :
  exists out,
    cmain scan_bound 0 0 image_blank (boot image_start_only) = Some out /\
    loader_start out = 5 /\ loader_end out = 0 /\
    loader_size out = 4294967291 /\
    non_vga (trace (final out))
    = [EvMemcpy 65541 5 4294967291;
       EvCall (u32 (0 + 65536)); EvSwitchToRust 65536].
Proof.
  destruct (copy_length_wraps scan_bound 0 0 image_blank image_start_only)
    as (out & E & Hsz & Htr & _ & Hwrap); [lia | apply Nat.le_refl |].
  destruct (cmain_outcome scan_bound 0 0 image_blank image_start_only)
    as (out' & E' & Els & Ele & _); [lia | apply Nat.le_refl |].
  rewrite E in E'. injection E' as <-.
  destruct scan_bounds_start_only as (S5 & E0).
  rewrite S5 in Els. rewrite E0 in Ele.
  exists out. split; [exact E |].
  destruct Hwrap as (Hw & _); [lia |].
  rewrite Htr, Hw, Els, Ele.
  split; [reflexivity |]. split; [reflexivity |]. split; reflexivity.
Defined.

(** ** The primitive runtime *)

Lemma memcpy_succ dest src k m :
  0 <= k ->
  memcpy dest src (k + 1) m
  = store8 (memcpy dest src k m) (dest + k)
      (load8 (memcpy dest src k m) (src + k)).
Proof.
  intros Hk. unfold memcpy.
  replace (Z.to_nat (k + 1)) with (S (Z.to_nat k)) by lia.
  rewrite memcpy_loop_snoc, Z.add_0_l, Z2Nat.id by exact Hk.
  reflexivity.
Qed.

(** C6.  [memcpy] writes its bytes in ascending order (the copy of [k + 1]
    bytes is the copy of [k] bytes followed by the store of byte [k]); when
    the two ranges do not meet, the [n] bytes then found at the destination
    are the [n] bytes that were at the source, and the source is intact.
    At the distance the relocator uses, payloads of 0, 1 and 1024 bytes
    arrive byte for byte. *)
Theorem memcpy_copies dest src n m :
  0 <= n < 4294967296 ->
  (forall i j, 0 <= i < n -> 0 <= j < n -> u32 (dest + i) <> u32 (src + j)) ->
  bytes_at (memcpy dest src n m) dest (Z.to_nat n)
  = bytes_at m src (Z.to_nat n) /\
  bytes_at (memcpy dest src n m) src (Z.to_nat n)
  = bytes_at m src (Z.to_nat n) /\
  (forall k, 0 <= k < n ->
     memcpy dest src (k + 1) m
     = store8 (memcpy dest src k m) (dest + k)
         (load8 (memcpy dest src k m) (src + k))) /\
  (forall ls size, 0 <= ls <= 65535 -> In size [0; 1; 1024] ->
     bytes_at (memcpy (65536 + ls) ls size m) (65536 + ls) (Z.to_nat size)
     = bytes_at m ls (Z.to_nat size)).
Proof.
  intros Hn Hd. split; [| split; [| split]].
  - apply bytes_at_eq; [apply bytes_at_length |].
    intros i Hi. rewrite bytes_at_nth by exact Hi.
    unfold memcpy. apply memcpy_loop_disjoint; try lia.
    intros a b Ha Hb. apply Hd; lia.
  - apply bytes_at_eq; [apply bytes_at_length |].
    intros i Hi. rewrite bytes_at_nth by exact Hi.
    unfold memcpy. apply memcpy_loop_frame.
    intros j Hj C. symmetry in C. revert C.
    rewrite Z.add_0_l. apply Hd; lia.
  - intros k Hk. apply memcpy_succ. lia.
  - intros ls size Hls Hsize.
    assert (Hs : 0 <= size <= 1024) by (simpl in Hsize; lia).
    apply bytes_at_eq; [apply bytes_at_length |].
    intros i Hi. rewrite bytes_at_nth by exact Hi.
    unfold memcpy. apply memcpy_loop_disjoint; try lia.
    intros a b Ha Hb. rewrite !u32_small by lia. lia.
Qed.

(** A copy of 1024 bytes from offset 4 to 0x10004. *)
Lemma memcpy_copies_witness :
  bytes_at (memcpy 65540 4 1024 image_4_12) 65540 (Z.to_nat 1024)
  = bytes_at image_4_12 4 (Z.to_nat 1024) /\
  bytes_at (memcpy 65540 4 0 image_4_12) 65540 (Z.to_nat 0)
  = bytes_at image_4_12 4 (Z.to_nat 0) /\
  bytes_at (memcpy 65540 4 1 image_4_12) 65540 (Z.to_nat 1)
  = bytes_at image_4_12 4 (Z.to_nat 1).
Proof.
  destruct (memcpy_copies 65540 4 1024 image_4_12) as (A & _ & _ & R).
  - lia.
  - intros i j Hi Hj. rewrite !u32_small by lia. lia.
  - split; [exact A |]. split.
    + apply (R 4 0); [lia | simpl; auto].
    + apply (R 4 1); [lia | simpl; auto].
Defined.

Lemma nth_rev_first (l : list Z) d :
  l <> [] -> nth 0 (rev l) d = last l d.
Proof.
  intros Hne. destruct (exists_last Hne) as (l' & x & ->).
  rewrite rev_app_distr, last_last. reflexivity.
Qed.

Lemma decimal_leading num :
  0 < num < 4294967296 -> nth 0 (decimal num) 0 <> 48.
Proof.
  intros Hn. unfold decimal.
  destruct (Z.eqb_spec num 0); [lia |].
  rewrite nth_rev_first.
  - apply digits_rev_last. split; [lia |]. apply u32_below_pow10; lia.
  - intro C. pose proof (digits_rev_nonempty 10 num) as H.
    rewrite C in H. simpl in H. lia.
Qed.

Lemma parse_decimal_decimal num :
  0 <= num < 4294967296 -> parse_decimal (decimal num) = num.
Proof.
  intros Hn. unfold decimal.
  destruct (Z.eqb_spec num 0) as [-> | Hz]; [reflexivity |].
  apply parse_digits_rev. apply u32_below_pow10; lia.
Qed.

Lemma itoa_c_string fuel num number m :
  0 <= num < 4294967296 -> (11 <= fuel)%nat ->
  exists m',
    itoa fuel num number m = Some m' /\
    c_string fuel number m' = Some (decimal num) /\
    load8 m' (number + Z.of_nat (length (decimal num))) = 0.
Proof.
  intros Hn Hf.
  destruct (itoa_spec fuel num number m Hn Hf) as (m' & E & Hb & Hz & _).
  pose proof (decimal_length num) as Hlen.
  exists m'. split; [exact E |]. split; [| exact Hz].
  unfold c_string, strlen.
  rewrite (strlen_loop_spec fuel number m' (Z.of_nat (length (decimal num))));
    try lia.
  - cbn [bind]. now rewrite Nat2Z.id, Hb.
  - intros k Hk C.
    assert (Hin : In (load8 m' (number + k)) (decimal num)).
    { rewrite <- Hb. replace k with (Z.of_nat (Z.to_nat k)) by lia.
      rewrite <- bytes_at_nth with (k := length (decimal num)) by lia.
      apply nth_In. rewrite bytes_at_length. lia. }
    apply decimal_chars in Hin; lia.
Qed.

(** C7.  [itoa] leaves at [number] a null-terminated string of decimal
    digits, without a leading zero, that reads back as [num]; it is "0"
    for 0 and "4294967295" for 4294967295. *)
Theorem itoa_renders_decimal fuel num number m :
  0 <= num < 4294967296 -> (11 <= fuel)%nat ->
  exists m' s,
    itoa fuel num number m = Some m' /\
    c_string fuel number m' = Some s /\
    load8 m' (number + Z.of_nat (length s)) = 0 /\
    (forall c, In c s -> 48 <= c <= 57) /\
    (0 < num -> nth 0 s 0 <> 48) /\
    parse_decimal s = num /\
    (num = 0 -> s = chars_of "0") /\
    (num = 4294967295 -> s = chars_of "4294967295").
Proof.
  intros Hn Hf.
  destruct (itoa_c_string fuel num number m Hn Hf) as (m' & E & Hs & Hz).
  exists m', (decimal num).
  split; [exact E |]. split; [exact Hs |]. split; [exact Hz |].
  split; [intros c Hc; apply decimal_chars in Hc; lia |].
  split; [intros Hp; apply decimal_leading; lia |].
  split; [now apply parse_decimal_decimal |].
  split; intros ->; reflexivity.
Qed.

(** The round trip on the values 0, 1, 9, 10, 999 and 4294967295. *)
Lemma itoa_renders_decimal_witness :
  Forall (fun num =>
    exists m' s,
      itoa 11 num 0 image_blank = Some m' /\
      c_string 11 0 m' = Some s /\ parse_decimal s = num)
    [0; 1; 9; 10; 999; 4294967295].
Proof.
  repeat constructor;
    match goal with
    | |- exists m' s, itoa _ ?num _ _ = _ /\ _ =>
        destruct (itoa_renders_decimal 11 num 0 image_blank)
          as (m' & s & E & Hs & _ & _ & _ & Hp & _);
          [lia | lia | exists m', s; auto]
    end.
Defined.

(** ** What the entry argument and the display writes can reach *)

Lemma vga_puts_mem_cells l : forall st a,
  0 <= vga_address st ->
  vga_address st + 2 * Z.of_nat (length l) < 4294967296 ->
  (forall k, 1 <= k <= Z.of_nat (length l) ->
     u32 a <> vga_address st + 2 * k) ->
  load8 (st_mem (vga_puts l st)) a = load8 (st_mem st) a.
Proof.
  induction l as [| c l IH]; intros st a H0 H1 Ha.
  - reflexivity.
  - rewrite vga_puts_cons. simpl length in H1, Ha.
    assert (E : vga_address (vga_put c st) = vga_address st + 2)
      by (simpl; apply u32_small; lia).
    rewrite IH; rewrite ?E; try lia.
    + simpl st_mem. apply load8_store8_other.
      rewrite u32_idem, (u32_small (vga_address st + 2)) by lia.
      specialize (Ha 1). lia.
    + intros k Hk. specialize (Ha (k + 1)). lia.
Qed.

Lemma vga_writes_app t1 t2 :
  vga_writes (t1 ++ t2) = vga_writes t1 ++ vga_writes t2.
Proof.
  induction t1 as [| e t1 IH]; simpl; [reflexivity |].
  destruct e; simpl; now rewrite IH.
Qed.

(** The copy of the relocator, with the destination 0x10000 above the
    source: what two memories agree on away from the display, the copies
    agree on. *)
Lemma relocation_agrees M1 M2 ls n a :
  0 <= ls <= 65535 -> 0 <= n -> ls + n <= 4294967296 ->
  (forall b, ~ (vga_base < u32 b <= vga_base + 88) ->
     load8 M1 b = load8 M2 b) ->
  ~ (vga_base < u32 a <= vga_base + 88)
  \/ (u32 a - (ls + 65536)) mod 4294967296 < n ->
  load8 (memcpy (65536 + ls) ls n M1) a
  = load8 (memcpy (65536 + ls) ls n M2) a.
Proof.
  intros Hls Hn Hb Hagree Ha. unfold memcpy.
  replace (65536 + ls) with (ls + 65536) by lia.
  rewrite !memcpy_loop_shift by lia. cbv zeta.
  rewrite Z2Nat.id by lia.
  set (j := (u32 a - (ls + 65536)) mod 4294967296) in *.
  destruct (Z.ltb_spec j n) as [Lt | Ge].
  - apply Hagree.
    assert (0 <= j mod 65536 < 65536) by (apply Z.mod_pos_bound; lia).
    rewrite u32_small by lia. unfold vga_base. lia.
  - apply Hagree. destruct Ha; [assumption | lia].
Qed.

(** C8.  Two runs on the same image that differ in the entry argument
    only: the same scan result, the same calls (of [memcpy], through
    [test_ptr], and of [switch_to_rust] with 0x10000 as its argument), the
    same bytes at the destination of the copy and the same memory away
    from the display; on the display the two runs differ in the rendering
    of the argument and in nothing else. *)
Theorem entry_argument_is_diagnostic_only fuel test_fn frame image addr1 addr2 :
  0 <= addr1 < 4294967296 -> 0 <= addr2 < 4294967296 ->
  (scan_bound <= fuel)%nat ->
  exists out1 out2,
    cmain fuel test_fn addr1 frame (boot image) = Some out1 /\
    cmain fuel test_fn addr2 frame (boot image) = Some out2 /\
    loader_start out1 = loader_start out2 /\
    loader_end out1 = loader_end out2 /\
    loader_size out1 = loader_size out2 /\
    non_vga (trace (final out1)) = non_vga (trace (final out2)) /\
    non_vga (trace (final out1))
    = [EvMemcpy (65536 + loader_start out1) (loader_start out1)
         (loader_size out1);
       EvCall (u32 (test_fn + 65536)); EvSwitchToRust 65536] /\
    (forall i, 0 <= i < loader_size out1 ->
       load8 (st_mem (final out1)) (65536 + loader_start out1 + i)
       = load8 (st_mem (final out2)) (65536 + loader_start out1 + i)) /\
    (forall a, ~ (vga_base < u32 a <= vga_base + 88) ->
       load8 (st_mem (final out1)) a = load8 (st_mem (final out2)) a) /\
    (exists rest,
       display_text (trace (final out1)) = decimal addr1 ++ rest /\
       display_text (trace (final out2)) = decimal addr2 ++ rest).
Proof.
  intros Ha1 Ha2 Hf.
  destruct (cmain_outcome fuel test_fn addr1 frame image Ha1 Hf)
    as (out1 & E1 & Els1 & Ele1 & Esz1 & Etr1 & _ & Emem1).
  destruct (cmain_outcome fuel test_fn addr2 frame image Ha2 Hf)
    as (out2 & E2 & Els2 & Ele2 & Esz2 & Etr2 & _ & Emem2).
  destruct (diagnostics_facts addr1 image) as (Hlen1 & Hch1); [lia |].
  destruct (diagnostics_facts addr2 image) as (Hlen2 & Hch2); [lia |].
  destruct (scan_result_range image) as (Hls & Hle & Hord & _).
  assert (Hn : 0 <= u32 (scan_end image - scan_start image)
               /\ scan_start image
                  + u32 (scan_end image - scan_start image) <= 4294967296).
  { unfold u32. Z.to_euclidean_division_equations. lia. }
  assert (Hagree : forall b, ~ (vga_base < u32 b <= vga_base + 88) ->
            load8 (st_mem (vga_puts (diagnostics addr1 image) (boot image))) b
            = load8 (st_mem (vga_puts (diagnostics addr2 image) (boot image))) b).
  { intros b Hb.
    rewrite !vga_puts_mem;
      unfold boot; cbn [vga_address st_mem]; unfold vga_base in *;
      try reflexivity; lia. }
  exists out1, out2.
  split; [exact E1 |]. split; [exact E2 |].
  rewrite Esz1, Esz2, Els1, Els2, Ele1, Ele2, Etr1, Etr2, Emem1, Emem2.
  rewrite !non_vga_cells, !display_text_cells, !app_nil_r.
  rewrite !map_u8_chars by assumption.
  split; [reflexivity |]. split; [reflexivity |]. split; [reflexivity |].
  split; [reflexivity |]. split; [reflexivity |]. split; [| split].
  - intros i Hi.
    apply relocation_agrees; [lia | lia | lia | exact Hagree |].
    right.
    pose proof (u32_range (scan_end image - scan_start image)) as Hr.
    replace (65536 + scan_start image + i)
      with (scan_start image + 65536 + i) by lia.
    rewrite u32_sub_add; lia.
  - intros a Ha.
    apply relocation_agrees; [lia | lia | lia | exact Hagree |].
    now left.
  - unfold diagnostics. eexists. split; reflexivity.
Qed.

(** Entry arguments 0 and 4294967295 on the image with sentinels at 4 and
    12. *)
Lemma entry_argument_is_diagnostic_only_witness :
  exists out1 out2,
    cmain scan_bound 0 0 image_blank (boot image_4_12) = Some out1 /\
    cmain scan_bound 0 4294967295 image_blank (boot image_4_12) = Some out2 /\
    loader_start out1 = loader_start out2 /\
    loader_end out1 = loader_end out2 /\
    non_vga (trace (final out1)) = non_vga (trace (final out2)) /\
    (exists rest,
       display_text (trace (final out1)) = decimal 0 ++ rest /\
       display_text (trace (final out2)) = decimal 4294967295 ++ rest).
Proof.
  destruct (entry_argument_is_diagnostic_only scan_bound 0 image_blank
              image_4_12 0 4294967295)
    as (out1 & out2 & E1 & E2 & Hs & He & _ & Ht & _ & _ & _ & Hd);
    [lia | lia | apply Nat.le_refl |].
  exists out1, out2. repeat split; assumption.
Defined.

(** [test] is not called at its own address: [cmain] jumps to
    [test + 0x10000].  Run where it is linked, it would store at the cursor
    as it stands, on the cell written last, and move the cursor by a single
    byte. *)
Remark test_at_cursor st :
  0 <= vga_address st < 4294967295 ->
  st_mem (test st) = store8 (st_mem st) (vga_address st) 113 /\
  vga_address (test st) = vga_address st + 1.
Proof.
  intros H. unfold test. cbn [st_mem vga_address].
  split; [reflexivity | apply u32_small; lia].
Qed.

(** C9, as the code has it.  Every character is written through the one
    cursor, two bytes after the previous one, from 0xb8002 on; the cursor
    ends two bytes further for each character written and is never taken
    back; no character lands on an attribute byte, and when the scan ends
    with [loader_start <= loader_end] the attribute bytes hold at the
    handoff what they held on entry. *)
Theorem display_writes_stride fuel test_fn addr frame image :
  0 <= addr < 4294967296 -> (scan_bound <= fuel)%nat ->
  exists out,
    cmain fuel test_fn addr frame (boot image) = Some out /\
    (forall k, (k < length (vga_writes (trace (final out))))%nat ->
       fst (nth k (vga_writes (trace (final out))) (0, 0))
       = vga_base + 2 * (Z.of_nat k + 1)) /\
    vga_address (final out)
    = vga_base + 2 * Z.of_nat (length (vga_writes (trace (final out)))) /\
    (forall p c, In (p, c) (vga_writes (trace (final out))) ->
       ~ attribute_cell p) /\
    (loader_start out <= loader_end out ->
     forall a, attribute_cell a ->
       load8 (st_mem (final out)) a = load8 image a).
Proof.
  intros Ha Hf.
  destruct (cmain_outcome fuel test_fn addr frame image Ha Hf)
    as (out & E & Els & Ele & Esz & Etr & Eva & Emem).
  destruct (diagnostics_facts addr image) as (Hlen & _); [lia |].
  destruct (scan_result_range image) as (Hls & Hle & _).
  assert (Hws : vga_writes (trace (final out))
                = vga_writes (cell_events vga_base (diagnostics addr image))).
  { rewrite Etr, vga_writes_app. simpl. apply app_nil_r. }
  assert (Hn : length (vga_writes (trace (final out)))
               = length (diagnostics addr image)).
  { rewrite Hws. apply vga_writes_cells_length. }
  assert (Hnth : forall k, (k < length (vga_writes (trace (final out))))%nat ->
            fst (nth k (vga_writes (trace (final out))) (0, 0))
            = vga_base + 2 * (Z.of_nat k + 1)).
  { intros k Hk. rewrite Hn in Hk. rewrite Hws.
    rewrite <- (app_nil_r (cell_events _ _)).
    now apply vga_writes_cells_nth. }
  exists out. split; [exact E |]. split; [exact Hnth |].
  split; [now rewrite Eva, Hn |]. split.
  - intros p c Hin (k' & Hk' & Hp).
    destruct (In_nth _ _ (0, 0) Hin) as (k & Hk & Enth).
    specialize (Hnth k Hk). rewrite Enth in Hnth. cbn [fst] in Hnth. lia.
  - intros Hord a (k & Hk & Hak).
    rewrite Els, Ele in Hord. rewrite Emem.
    rewrite (u32_small (scan_end image - scan_start image)) by lia.
    unfold memcpy. rewrite memcpy_loop_frame.
    + unfold vga_base in Hak.
      apply vga_puts_mem_cells;
        unfold boot; cbn [vga_address]; unfold vga_base; try lia.
      intros k' Hk'. rewrite u32_small by lia. lia.
    + intros j Hj. unfold vga_base in Hak. rewrite !u32_small by lia. lia.
Qed.

(** The stage run on the image with sentinels at 4 and 12. *)
Lemma display_writes_stride_witness :
  exists out,
    cmain scan_bound 0 42 image_blank (boot image_4_12) = Some out /\
    (forall k, (k < length (vga_writes (trace (final out))))%nat ->
       fst (nth k (vga_writes (trace (final out))) (0, 0))
       = vga_base + 2 * (Z.of_nat k + 1)) /\
    vga_address (final out)
    = vga_base + 2 * Z.of_nat (length (vga_writes (trace (final out)))) /\
    (forall p c, In (p, c) (vga_writes (trace (final out))) ->
       ~ attribute_cell p) /\
    (forall a, attribute_cell a ->
       load8 (st_mem (final out)) a = load8 image_4_12 a).
Proof.
  destruct (display_writes_stride scan_bound 0 42 image_blank image_4_12)
    as (out & E & H1 & H2 & H3 & H4); [lia | apply Nat.le_refl |].
  destruct (cmain_outcome scan_bound 0 42 image_blank image_4_12)
    as (out' & E' & Els & Ele & _); [lia | apply Nat.le_refl |].
  rewrite E in E'. injection E' as <-.
  destruct scan_bounds_4_12 as (S4 & E12).
  rewrite S4 in Els. rewrite E12 in Ele.
  exists out.
  refine (conj E (conj H1 (conj H2 (conj H3 (H4 _))))).
  rewrite Els, Ele. lia.
Defined.

(** C9 as the specification words it does not hold of the code.  With a
    start sentinel at offset 5 and no end sentinel up to the bound,
    [loader_end = 0 < loader_start = 5]: the copy of 2^32 - 5 bytes runs
    over the display, and the attribute byte at 0xb8001, zero on entry,
    holds 7 (the byte of offset 0x8001) at the handoff. *)
Lemma attribute_byte_overwritten :
  exists out,
    cmain scan_bound 0 0 image_blank (boot image_start_only) = Some out /\
    attribute_cell 753665 /\
    load8 image_start_only 753665 = 0 /\
    load8 (st_mem (final out)) 753665 = 7.
Proof.
  destruct (cmain_outcome scan_bound 0 0 image_blank image_start_only)
    as (out & E & _ & _ & _ & _ & _ & Emem); [lia | apply Nat.le_refl |].
  destruct (diagnostics_facts 0 image_start_only) as (Hlen & _); [lia |].
  destruct scan_bounds_start_only as (S5 & E0).
  rewrite S5, E0 in Emem.
  exists out. split; [exact E |]. split; [| split].
  - exists 0. unfold vga_base. lia.
  - by_evaluation.
  - rewrite Emem. unfold memcpy.
    replace (u32 (0 - 5)) with 4294967291 by reflexivity.
    replace (65536 + 5) with (5 + 65536) by reflexivity.
    rewrite memcpy_loop_shift by lia.
    cbv zeta. rewrite Z2Nat.id by lia.
    replace ((u32 753665 - (5 + 65536)) mod 4294967296) with 688124
      by reflexivity.
    replace (688124 <? 4294967291) with true by reflexivity.
    replace (5 + 688124 mod 65536) with 32769 by reflexivity.
    rewrite (vga_puts_same_image _ image_start_only) by lia.
    by_evaluation.
Defined.

(** * Further properties of the code *)

(** ** [memset] *)

Lemma memset_loop_spec k : forall temp val m,
  Z.of_nat k <= 4294967296 ->
  (forall i, 0 <= i < Z.of_nat k ->
     load8 (memset_loop k temp val m) (temp + i) = u8 val) /\
  (forall a, (forall i, 0 <= i < Z.of_nat k -> u32 a <> u32 (temp + i)) ->
     load8 (memset_loop k temp val m) a = load8 m a).
Proof.
  induction k as [| k IH]; intros temp val m Hk.
  - split; [intros; lia | reflexivity].
  - cbn [memset_loop].
    destruct (IH (temp + 1) val (store8 m temp val)) as (Hin & Hout); [lia |].
    split.
    + intros i Hi. destruct (Z.eq_dec i 0) as [-> | Hne].
      * rewrite Z.add_0_r, Hout; [apply load8_store8_same |].
        intros j Hj C. replace temp with (temp + 0) in C at 1 by lia.
        rewrite <- Z.add_assoc in C. apply u32_add_inj in C; lia.
      * replace (temp + i) with (temp + 1 + (i - 1)) by lia.
        apply Hin. lia.
    + intros a Ha. rewrite Hout.
      * apply load8_store8_other. specialize (Ha 0).
        rewrite Z.add_0_r in Ha. apply Ha. lia.
      * intros j Hj. rewrite <- Z.add_assoc. apply Ha. lia.
Qed.

(** X1.  [memset] with a count [n >= 0] sets exactly the [n] bytes from
    [dst] on to [val] (as a byte) and leaves every other byte of memory as
    it was; with [n = 0] it changes nothing. *)
Theorem memset_fills dst val n m :
  0 <= n <= 2147483647 ->
  bytes_at (memset dst val n m) dst (Z.to_nat n) = repeat (u8 val) (Z.to_nat n) /\
  (forall a, (forall i, 0 <= i < n -> u32 a <> u32 (dst + i)) ->
     load8 (memset dst val n m) a = load8 m a) /\
  memset dst val 0 m = m.
Proof.
  intros Hn. unfold memset. rewrite (u32_small n) by lia.
  destruct (memset_loop_spec (Z.to_nat n) dst val m) as (Hin & Hout); [lia |].
  split; [| split].
  - apply bytes_at_eq; [apply repeat_length |].
    intros i Hi. rewrite Hin by lia.
    symmetry. apply nth_repeat_lt. exact Hi.
  - intros a Ha. apply Hout. intros i Hi. apply Ha. lia.
  - reflexivity.
Qed.

(** The 32 bytes of a buffer at address 1000 cleared, the neighbours kept. *)
Lemma memset_fills_witness :
  bytes_at (memset 1000 0 32 (fun _ => 7)) 1000 (Z.to_nat 32)
  = repeat (u8 0) (Z.to_nat 32) /\
  load8 (memset 1000 0 32 (fun _ => 7)) 999 = 7 /\
  load8 (memset 1000 0 32 (fun _ => 7)) 1032 = 7.
Proof.
  destruct (memset_fills 1000 0 32 (fun _ => 7)) as (A & B & _); [lia |].
  split; [exact A |]. split.
  - rewrite B; [reflexivity |].
    intros i Hi. rewrite !u32_small by lia. lia.
  - rewrite B; [reflexivity |].
    intros i Hi. rewrite !u32_small by lia. lia.
Defined.

(** ** [memcpy] beyond disjoint ranges *)

Lemma memcpy_loop_index k : forall dest src i c m,
  memcpy_loop k dest src (i + c) m = memcpy_loop k (dest + c) (src + c) i m.
Proof.
  induction k as [| k IH]; intros dest src i c m; [reflexivity |].
  cbn [memcpy_loop].
  replace (i + c + 1) with (i + 1 + c) by lia.
  replace (dest + (i + c)) with (dest + c + i) by lia.
  replace (src + (i + c)) with (src + c + i) by lia.
  apply IH.
Qed.

Lemma memcpy_loop_add a : forall b dest src i m,
  memcpy_loop (a + b) dest src i m
  = memcpy_loop b dest src (i + Z.of_nat a) (memcpy_loop a dest src i m).
Proof.
  induction a as [| a IH]; intros b dest src i m.
  - simpl. now rewrite Z.add_0_r.
  - cbn [Nat.add memcpy_loop]. rewrite IH.
    replace (i + 1 + Z.of_nat a) with (i + Z.of_nat (S a)) by lia.
    reflexivity.
Qed.

(** A copy to a destination below the source, ranges overlapping or not:
    every byte is read before the copy reaches it. *)
Lemma memcpy_loop_down k : forall d D m a,
  0 <= d -> 0 < D -> d + D + Z.of_nat k <= 4294967296 ->
  load8 (memcpy_loop k d (d + D) 0 m) a =
  if (d <=? u32 a) && (u32 a <? d + Z.of_nat k)
  then load8 m (u32 a + D) else load8 m a.
Proof.
  induction k as [| k IH]; intros d D m a Hd HD Hk.
  - simpl Z.of_nat. rewrite Z.add_0_r.
    destruct (Z.leb_spec d (u32 a)), (Z.ltb_spec (u32 a) d);
      try lia; reflexivity.
  - rewrite memcpy_loop_snoc, Z.add_0_l, load8_store8.
    set (K := Z.of_nat k) in *.
    assert (HK : Z.of_nat (S k) = K + 1) by (unfold K; lia).
    rewrite HK in *.
    pose proof (u32_range a) as Hra.
    rewrite (u32_small (d + K)) by lia.
    destruct (Z.eqb_spec (u32 a) (d + K)) as [E | E].
    + rewrite u8_small by apply load8_range.
      rewrite (IH d D m (d + D + K)) by lia.
      rewrite (u32_small (d + D + K)) by lia.
      destruct (Z.leb_spec d (d + D + K)), (Z.ltb_spec (d + D + K) (d + K));
        try lia.
      destruct (Z.leb_spec d (u32 a)), (Z.ltb_spec (u32 a) (d + (K + 1)));
        try lia.
      cbn [andb]. rewrite E. f_equal. lia.
    + rewrite (IH d D m a) by lia.
      destruct (Z.leb_spec d (u32 a)), (Z.ltb_spec (u32 a) (d + K)),
        (Z.ltb_spec (u32 a) (d + (K + 1))); try lia; reflexivity.
Qed.

(** X2.  [memcpy] writes nowhere but to the [n] bytes from [dest] on, and
    with [n = 0] it writes nothing. *)
Theorem memcpy_touches_destination_only dest src n m a :
  0 <= n ->
  (forall i, 0 <= i < n -> u32 a <> u32 (dest + i)) ->
  load8 (memcpy dest src n m) a = load8 m a /\ memcpy dest src 0 m = m.
Proof.
  intros Hn Ha. split; [| reflexivity].
  unfold memcpy. apply memcpy_loop_frame.
  intros j Hj. rewrite Z.add_0_l. apply Ha. lia.
Qed.

(** The byte before and the byte after an 8-byte destination. *)
Lemma memcpy_touches_destination_only_witness :
  load8 (memcpy 65540 4 8 (fun a => a)) 65539 = 3 /\
  load8 (memcpy 65540 4 8 (fun a => a)) 65548 = 12.
Proof.
  split.
  - destruct (memcpy_touches_destination_only 65540 4 8 (fun a => a) 65539)
      as (A & _); [lia | | rewrite A; reflexivity].
    intros i Hi. rewrite !u32_small by lia. lia.
  - destruct (memcpy_touches_destination_only 65540 4 8 (fun a => a) 65548)
      as (A & _); [lia | | rewrite A; reflexivity].
    intros i Hi. rewrite !u32_small by lia. lia.
Defined.

(** X3.  [memcpy] is not a [memmove]: when the destination lies [D] bytes
    above the source and the ranges overlap or not, the byte that arrives at
    [dest + i] is the original source byte at offset [i mod D], so the first
    [D] source bytes repeat through the destination. *)
Theorem memcpy_overlap_above_repeats s D n m i :
  0 <= s -> 0 < D -> s + D + n <= 4294967296 -> 0 <= i < n ->
  load8 (memcpy (s + D) s n m) (s + D + i) = load8 m (s + i mod D).
Proof.
  intros Hs HD Hn Hi. unfold memcpy.
  rewrite memcpy_loop_shift by lia. cbv zeta.
  rewrite u32_sub_add by lia.
  rewrite Z2Nat.id by lia.
  destruct (Z.ltb_spec i n); [reflexivity | lia].
Qed.

(** A copy one byte up smears the first byte over the destination. *)
Lemma memcpy_overlap_above_repeats_witness :
  load8 (memcpy 101 100 16 (fun a => a)) 110 = 100.
Proof.
  change 110 with (100 + 1 + 9). change 101 with (100 + 1).
  rewrite (memcpy_overlap_above_repeats 100 1 16 (fun a => a) 9) by lia.
  reflexivity.
Defined.

(** X4.  When the destination lies below the source, an overlapping
    [memcpy] still delivers the original source bytes: each byte is read
    before the ascending copy overwrites it. *)
Theorem memcpy_overlap_below_is_exact d D n m i :
  0 <= d -> 0 < D -> d + D + n <= 4294967296 -> 0 <= i < n ->
  load8 (memcpy d (d + D) n m) (d + i) = load8 m (d + D + i).
Proof.
  intros Hd HD Hn Hi. unfold memcpy.
  rewrite memcpy_loop_down by lia.
  rewrite (u32_small (d + i)) by lia. rewrite Z2Nat.id by lia.
  destruct (Z.leb_spec d (d + i)), (Z.ltb_spec (d + i) (d + n)); try lia.
  cbn [andb]. f_equal. lia.
Qed.

(** A copy one byte down of 16 bytes. *)
Lemma memcpy_overlap_below_is_exact_witness :
  load8 (memcpy 100 101 16 (fun a => a)) 109 = 110.
Proof.
  change 109 with (100 + 9). change 101 with (100 + 1).
  rewrite (memcpy_overlap_below_is_exact 100 1 16 (fun a => a) 9) by lia.
  reflexivity.
Defined.

(** X5.  A copy of [a + b] bytes is the copy of the first [a] bytes followed
    by the copy of the remaining [b] bytes. *)
Theorem memcpy_splits dest src a b m :
  0 <= a -> 0 <= b ->
  memcpy dest src (a + b) m
  = memcpy (dest + a) (src + a) b (memcpy dest src a m).
Proof.
  intros Ha Hb. unfold memcpy.
  rewrite Z2Nat.inj_add by lia.
  rewrite memcpy_loop_add, Z2Nat.id by lia.
  apply (memcpy_loop_index (Z.to_nat b) dest src 0 a).
Qed.

(** Eight bytes as three and five. *)
Lemma memcpy_splits_witness :
  memcpy 65540 4 (3 + 5) image_4_12
  = memcpy (65540 + 3) (4 + 3) 5 (memcpy 65540 4 3 image_4_12).
Proof. apply memcpy_splits; lia. Defined.

(** ** [strlen], [digit_count], [itoa] *)

(** X6.  [strlen] returns the offset of the first zero byte from [str] on
    (0 when the very first byte is zero), given fuel for one test more than
    that offset. *)
Theorem strlen_finds_first_nul fuel str m len :
  0 <= len < 4294967296 ->
  (forall k, 0 <= k < len -> load8 m (str + k) <> 0) ->
  load8 m (str + len) = 0 ->
  (Z.to_nat len < fuel)%nat ->
  strlen fuel str m = Some len.
Proof.
  intros Hl Hnz Hz Hf. unfold strlen.
  apply strlen_loop_spec; try lia; assumption.
Qed.

(** A buffer cleared by [memset] has length 0; a three-character string has
    length 3. *)
Lemma strlen_finds_first_nul_witness :
  strlen 1 1000 (memset 1000 0 32 (fun _ => 7)) = Some 0 /\
  strlen 4 0 (image_of [(0, 97); (1, 98); (2, 99)]) = Some 3.
Proof.
  split.
  - apply (strlen_finds_first_nul 1 1000 _ 0); [lia | intros; lia | | lia].
    by_evaluation.
  - apply (strlen_finds_first_nul 4 0 _ 3); [lia | | by_evaluation | lia].
    intros k Hk.
    assert (Hc : k = 0 \/ k = 1 \/ k = 2) by lia.
    destruct Hc as [-> | [-> | ->]]; vm_compute; discriminate.
Defined.

Lemma strlen_loop_starved fuel : forall str length m,
  (forall a, load8 m a <> 0) -> strlen_loop fuel str length m = None.
Proof.
  induction fuel as [| f IH]; intros str length m H; [reflexivity |].
  cbn [strlen_loop].
  destruct (Z.eqb_spec (load8 m (str + length)) 0) as [E | E].
  - exfalso. exact (H _ E).
  - now apply IH.
Qed.

(** X7.  [strlen] has no bound of its own: on a memory without a zero byte
    it does not return, whatever fuel it is given. *)
Theorem strlen_needs_a_terminator fuel str m :
  (forall a, load8 m a <> 0) -> strlen fuel str m = None.
Proof. intros H. unfold strlen. now apply strlen_loop_starved. Qed.

(** A memory filled with the byte 1. *)
Lemma strlen_needs_a_terminator_witness :
  strlen (Z.to_nat 100000) 0 (fun _ => 1) = None.
Proof.
  apply strlen_needs_a_terminator. intros a. vm_compute. discriminate.
Defined.

Lemma digits_rev_magnitude f : forall num,
  0 <= num < 10 ^ Z.of_nat f ->
  num < 10 ^ Z.of_nat (length (digits_rev f num)) /\
  (0 < num -> 10 ^ (Z.of_nat (length (digits_rev f num)) - 1) <= num).
Proof.
  induction f as [| f IH]; intros num H.
  - simpl in *. lia.
  - cbn [digits_rev]. destruct (Z.eqb_spec num 0) as [-> | Hz].
    + simpl. lia.
    + cbn [length]. rewrite pow10_succ.
      destruct (IH (num / 10) (div10_bound f num H)) as (Hup & Hlow).
      pose proof (Z.div_mod num 10) as Hdm.
      pose proof (Z.mod_pos_bound num 10) as Hmod.
      split; [lia |]. intros _.
      replace (Z.of_nat (S (length (digits_rev f (num / 10)))) - 1)
        with (Z.of_nat (length (digits_rev f (num / 10)))) by lia.
      destruct (Z.eq_dec (num / 10) 0) as [E | E].
      * rewrite E, digits_rev_zero. simpl. lia.
      * assert (Hq : 0 < num / 10) by lia.
        specialize (Hlow Hq).
        assert (Hlen : (0 < length (digits_rev f (num / 10)))%nat).
        { destruct f; [simpl in H; lia |].
          apply digits_rev_nonempty; lia. }
        replace (Z.of_nat (length (digits_rev f (num / 10))))
          with (Z.succ (Z.of_nat (length (digits_rev f (num / 10))) - 1))
          by lia.
        rewrite Z.pow_succ_r by lia. lia.
Qed.

Lemma digit_count_decimal fuel num :
  0 <= num < 4294967296 -> (11 <= fuel)%nat ->
  digit_count fuel num = Some (Z.of_nat (length (decimal num))).
Proof.
  intros Hn Hf. destruct fuel as [| f]; [lia |].
  unfold digit_count, decimal.
  destruct (Z.eqb_spec num 0) as [-> | Hz]; [reflexivity |].
  rewrite digit_count_loop_spec.
  - rewrite length_rev, Z.add_0_l.
    rewrite (digits_rev_fuel 10 num f); [reflexivity | | lia].
    apply u32_below_pow10; lia.
  - apply u32_below_pow10; lia.
  - lia.
  - rewrite (digits_rev_fuel 10 num f);
      [| apply u32_below_pow10; lia | lia].
    pose proof (digits_rev_length 10 num). lia.
Qed.

(** X8.  [digit_count] returns the number [d] of decimal digits of a 32-bit
    value: 1 for 0, and otherwise the [d] between 1 and 10 with
    [10^(d-1) <= num < 10^d]. *)
Theorem digit_count_is_decimal_width fuel num :
  0 <= num < 4294967296 -> (11 <= fuel)%nat ->
  exists d,
    digit_count fuel num = Some d /\
    1 <= d <= 10 /\
    num < 10 ^ d /\
    (0 < num -> 10 ^ (d - 1) <= num) /\
    (num = 0 -> d = 1).
Proof.
  intros Hn Hf. exists (Z.of_nat (length (decimal num))).
  split; [now apply digit_count_decimal |].
  pose proof (decimal_length num) as Hlen.
  split; [lia |].
  unfold decimal in *. destruct (Z.eqb_spec num 0) as [-> | Hz].
  - simpl. lia.
  - rewrite length_rev in *.
    destruct (digits_rev_magnitude 10 num) as (Hup & Hlow);
      [apply u32_below_pow10; lia |].
    split; [exact Hup |]. split; [exact Hlow | lia].
Qed.

(** The widths of 0, 9, 10, 999, 1000 and 4294967295. *)
Lemma digit_count_is_decimal_width_witness :
  Forall (fun nd =>
    exists d, digit_count 11 (fst nd) = Some d /\ d = snd nd)
    [(0, 1); (9, 1); (10, 2); (999, 3); (1000, 4); (4294967295, 10)].
Proof.
  repeat constructor;
    match goal with
    | |- exists d, digit_count _ (fst (?num, _)) = _ /\ _ =>
        destruct (digit_count_is_decimal_width 11 num)
          as (d & E & _); [lia | lia |];
        exists d; split; [exact E |];
        cbn [fst snd] in *; vm_compute in E; now injection E
    end.
Defined.

(** X9.  [itoa] needs room for the digits and the terminator only: it
    changes no byte outside [number[0 .. d]], where [d <= 10] is what
    [digit_count] returns, and [strlen] of the result is [d]. *)
Theorem itoa_stays_in_its_buffer fuel num number m :
  0 <= num < 4294967296 -> (11 <= fuel)%nat ->
  exists m' d,
    itoa fuel num number m = Some m' /\
    digit_count fuel num = Some d /\
    1 <= d <= 10 /\
    strlen fuel number m' = Some d /\
    (forall a, (forall k, 0 <= k <= d -> u32 a <> u32 (number + k)) ->
       load8 m' a = load8 m a).
Proof.
  intros Hn Hf.
  destruct (itoa_spec fuel num number m Hn Hf) as (m' & E & Hb & Hz & Hfr).
  pose proof (decimal_length num) as Hlen.
  exists m', (Z.of_nat (length (decimal num))).
  split; [exact E |]. split; [now apply digit_count_decimal |].
  split; [lia |]. split; [| exact Hfr].
  unfold strlen. apply strlen_loop_spec; try lia.
  intros k Hk C.
  assert (Hin : In (load8 m' (number + k)) (decimal num)).
  { rewrite <- Hb. replace k with (Z.of_nat (Z.to_nat k)) by lia.
    rewrite <- bytes_at_nth with (k := length (decimal num)) by lia.
    apply nth_In. rewrite bytes_at_length. lia. }
  apply decimal_chars in Hin; lia.
Qed.

(** The largest value rendered into the middle of a memory of sevens: the
    bytes before the buffer and after the terminator stay. *)
Lemma itoa_stays_in_its_buffer_witness :
  exists m',
    itoa 11 4294967295 1000 (fun _ => 7) = Some m' /\
    strlen 11 1000 m' = Some 10 /\
    load8 m' 999 = 7 /\ load8 m' 1011 = 7.
Proof.
  destruct (itoa_stays_in_its_buffer 11 4294967295 1000 (fun _ => 7))
    as (m' & d & E & Hd & _ & Hs & Hfr); [lia | lia |].
  assert (Ed : d = 10) by (vm_compute in Hd; now injection Hd).
  subst d. exists m'. split; [exact E |]. split; [exact Hs |]. split.
  - rewrite Hfr; [reflexivity |].
    intros k Hk. rewrite !u32_small by lia. lia.
  - rewrite Hfr; [reflexivity |].
    intros k Hk. rewrite !u32_small by lia. lia.
Defined.

(** ** The scanner and the stage *)






Section LastStart.

Variable m : mem.

Lemma last_start_is_match : forall k i acc,
  last_start m k i acc = acc \/
  (i <= last_start m k i acc < i + Z.of_nat k /\
   start_match m (last_start m k i acc) = true).
Proof.
  induction k as [| k IH]; intros i acc; [now left |].
  cbn [last_start].
  destruct (IH (i + 1) (if start_match m i then i else acc)) as [E | (R & M)].
  - rewrite E. destruct (start_match m i) eqn:Ei.
    + right. split; [lia | exact Ei].
    + now left.
  - right. split; [lia | exact M].
Qed.

End LastStart.

Lemma scan_result_cases image :
  (scan_end image = 0 \/ scan_start image < scan_end image) /\
  (scan_start image <> 0 -> start_match image (scan_start image) = true) /\
  (scan_end image <> 0 -> end_match image (scan_end image) = true) /\
  (scan_end image < scan_start image ->
   forall j, 0 <= j <= 65535 -> end_match image j = false).
Proof.
  unfold scan_start, scan_end, scan_result.
  destruct (first_end image scan_bound 0) as [e |] eqn:Ee; cbn [fst snd].
  - apply first_end_some in Ee. destruct Ee as (Hr & He & _).
    rewrite scan_bound_S in Hr.
    destruct (last_start_is_match image (Z.to_nat (e + 1)) 0 0)
      as [E | (R & M)].
    + rewrite E. repeat split; try (intros; lia); auto.
    + assert (last_start image (Z.to_nat (e + 1)) 0 0 <> e).
      { intro C. rewrite C in M. apply end_not_start in He. congruence. }
      repeat split; try (intros; lia); auto.
  - pose proof (first_end_none image scan_bound 0 Ee) as Hnone.
    assert (Hall : forall j, 0 <= j <= 65535 -> end_match image j = false).
    { intros j Hj. apply Hnone. rewrite scan_bound_S. lia. }
    destruct (last_start_is_match image scan_bound 0 0) as [E | (R & M)].
    + rewrite E. repeat split; try (intros; lia); auto.
    + repeat split; try (intros; lia); auto.
Qed.

(** X11.  Whatever the image, the bounds the stage ends with lie below
    0x10000; a non-zero [loader_end] is the offset of an end sentinel and
    lies strictly above [loader_start], so that between 1 and 0xFFFF bytes
    are copied; a non-zero [loader_start] is the offset of a start
    sentinel; and [loader_end < loader_start] happens only when no end
    sentinel matched up to the scan bound. *)
Theorem scan_bounds_invariant fuel test_fn addr frame image :
  0 <= addr < 4294967296 -> (scan_bound <= fuel)%nat ->
  exists out,
    cmain fuel test_fn addr frame (boot image) = Some out /\
    0 <= loader_start out <= 65535 /\
    0 <= loader_end out <= 65535 /\
    (loader_end out = 0 \/ loader_start out < loader_end out) /\
    (loader_start out <> 0 -> start_match image (loader_start out) = true) /\
    (loader_end out <> 0 ->
     end_match image (loader_end out) = true /\
     1 <= loader_size out <= 65535) /\
    (loader_end out < loader_start out ->
     forall j, 0 <= j <= 65535 -> end_match image j = false).
Proof.
  intros Ha Hf.
  destruct (cmain_outcome fuel test_fn addr frame image Ha Hf)
    as (out & E & Els & Ele & Esz & _).
  destruct (scan_result_range image) as (Hls & Hle & _).
  destruct (scan_result_cases image) as (Hord & Hs & He & Hab).
  exists out. split; [exact E |].
  rewrite Els, Ele, Esz.
  split; [exact Hls |]. split; [exact Hle |]. split; [exact Hord |].
  split; [exact Hs |]. split; [| exact Hab].
  intros Hnz. split; [now apply He |].
  rewrite u32_small by lia. lia.
Qed.

(** The image with start sentinels at 3 and 10 and end sentinels at 90 and
    200. *)
Lemma scan_bounds_invariant_witness :
  exists out,
    cmain scan_bound 0 7 image_blank (boot image_10_90) = Some out /\
    0 <= loader_start out <= 65535 /\
    0 <= loader_end out <= 65535 /\
    (loader_end out = 0 \/ loader_start out < loader_end out).
Proof.
  destruct (scan_bounds_invariant scan_bound 0 7 image_blank image_10_90)
    as (out & E & A & B & C & _); [lia | apply Nat.le_refl |].
  exists out. exact (conj E (conj A (conj B C))).
Defined.

(** X12.  The byte-order tolerance of the sentinel test makes a sentinel
    whose first byte comes again two bytes later match twice: when the
    start sentinel matches at [i] and the byte at [i + 2] equals the byte at
    [i], it matches at [i + 1] as well, and the scanner reports
    [loader_start = i + 1] if no later start match precedes the end. *)
Theorem repeated_sentinel_byte_shifts_start fuel st i e :
  (scan_bound <= fuel)%nat ->
  0 <= i -> i + 1 <= e <= 65535 ->
  start_match (st_mem st) i = true ->
  load8 (st_mem st) (i + 2) = load8 (st_mem st) i ->
  end_match (st_mem st) e = true ->
  (forall j, 0 <= j < e -> end_match (st_mem st) j = false) ->
  (forall j, i + 1 < j < e -> start_match (st_mem st) j = false) ->
  start_match (st_mem st) (i + 1) = true /\
  scan_loop fuel 0 0 0 st = Some (i + 1, e, st).
Proof.
  intros Hf Hi He Hs Hrep Hend Hfirst Hlast.
  assert (Hs1 : start_match (st_mem st) (i + 1) = true).
  { unfold start_match in *.
    rewrite (u32_small (i + 1)) in Hs by lia.
    rewrite (u32_small (i + 1 + 1)) by lia.
    replace (i + 1 + 1) with (i + 2) by lia. rewrite Hrep.
    destruct (Z.eqb_spec (load8 (st_mem st) i) 33) as [A | A];
      destruct (Z.eqb_spec (load8 (st_mem st) i) 115) as [B | B];
      destruct (Z.eqb_spec (load8 (st_mem st) (i + 1)) 33) as [C | C];
      destruct (Z.eqb_spec (load8 (st_mem st) (i + 1)) 115) as [D | D];
      simpl in *; try reflexivity; try discriminate; lia. }
  split; [exact Hs1 |].
  rewrite (scan_loop_result fuel (st_mem st) st)
    by (auto using same_image_refl).
  destruct (scan_found (st_mem st) e) as (E1 & E2 & E3); auto; [lia |].
  rewrite E1, E2, E3.
  rewrite (last_start_last (st_mem st) (Z.to_nat (e + 1)) 0 0 (i + 1));
    [reflexivity | | exact Hs1 |].
  - assert (i + 1 <> e).
    { intro C. rewrite C in Hs1. apply end_not_start in Hend. congruence. }
    lia.
  - intros j Hj. destruct (Z.eq_dec j e) as [-> | Hne].
    + now apply end_not_start.
    + apply Hlast. lia.
Qed.

(** The bytes 21 73 21 at offsets 10 to 12 and an end sentinel at 90. *)
Lemma repeated_sentinel_byte_shifts_start_witness :
  scan_loop scan_bound 0 0 0
    (boot (image_of [(10, 33); (11, 115); (12, 33); (90, 190); (91, 239)]))
  = Some (11, 90,
          boot (image_of [(10, 33); (11, 115); (12, 33); (90, 190); (91, 239)])).
Proof.
  apply (repeated_sentinel_byte_shifts_start scan_bound
           (boot (image_of [(10, 33); (11, 115); (12, 33);
                            (90, 190); (91, 239)])) 10 90).
  - apply Nat.le_refl.
  - lia.
  - lia.
  - by_evaluation.
  - by_evaluation.
  - by_evaluation.
  - apply (none_from
             (end_match (image_of [(10, 33); (11, 115); (12, 33);
                                   (90, 190); (91, 239)]))
             (Z.to_nat 90) 0).
    by_evaluation.
  - intros j Hj.
    apply (none_from
             (start_match (image_of [(10, 33); (11, 115); (12, 33);
                                     (90, 190); (91, 239)]))
             (Z.to_nat 78) 12); [by_evaluation | lia].
Defined.

(** ** What the stage writes *)

Lemma decimal_length_16 v :
  0 <= v <= 65535 -> (1 <= length (decimal v) <= 5)%nat.
Proof.
  intros Hv. pose proof (decimal_length v) as H.
  split; [lia |]. unfold decimal.
  destruct (Z.eqb_spec v 0); [simpl; lia |].
  rewrite length_rev, (digits_rev_fuel 5 v 10); [| simpl; lia | lia].
  apply digits_rev_length.
Qed.

Lemma diagnostics_length addr image :
  0 <= addr ->
  (13 <= length (diagnostics addr image) <= 34)%nat.
Proof.
  intros Ha. unfold diagnostics.
  destruct (scan_result_range image) as (Hls & Hle & _ & Htok).
  pose proof (decimal_length addr).
  pose proof (decimal_length_16 (scan_start image) Hls).
  pose proof (decimal_length_16 (scan_end image) Hle).
  rewrite !length_app. destruct Htok as [-> | ->]; simpl length; lia.
Qed.

Lemma cell_events_chars l : forall b p c,
  In (p, c) (vga_writes (cell_events b l)) -> 0 <= c < 256.
Proof.
  induction l as [| x l IH]; intros b p c Hin; simpl in Hin;
    [contradiction |].
  destruct Hin as [Heq | Hin].
  - inversion Heq. apply u8_range.
  - exact (IH _ _ _ Hin).
Qed.

(** X13.  The diagnostics of a run are between 13 and 34 characters; they
    go to the cells 0xb8002 to 0xb8044 at most, so the first cell of the
    display, at 0xb8000, is never written: the cursor is advanced before
    every store. *)
Theorem display_cells_used fuel test_fn addr frame image :
  0 <= addr < 4294967296 -> (scan_bound <= fuel)%nat ->
  exists out,
    cmain fuel test_fn addr frame (boot image) = Some out /\
    (13 <= length (vga_writes (trace (final out))) <= 34)%nat /\
    (forall p c, In (p, c) (vga_writes (trace (final out))) ->
       vga_base + 2 <= p <= vga_base + 68 /\ 0 <= c < 256) /\
    vga_base + 26 <= vga_address (final out) <= vga_base + 68.
Proof.
  intros Ha Hf.
  destruct (cmain_outcome fuel test_fn addr frame image Ha Hf)
    as (out & E & _ & _ & _ & Etr & Eva & _).
  destruct (diagnostics_length addr image) as (Hlo & Hhi); [lia |].
  assert (Hws : vga_writes (trace (final out))
                = vga_writes (cell_events vga_base (diagnostics addr image))).
  { rewrite Etr, vga_writes_app. simpl. apply app_nil_r. }
  assert (Hn : length (vga_writes (trace (final out)))
               = length (diagnostics addr image)).
  { rewrite Hws. apply vga_writes_cells_length. }
  exists out. split; [exact E |]. split; [lia |]. split; [| lia].
  intros p c Hin.
  destruct (In_nth _ _ (0, 0) Hin) as (k & Hk & Enth).
  assert (Hp : fst (nth k (vga_writes (trace (final out))) (0, 0))
               = vga_base + 2 * (Z.of_nat k + 1)).
  { rewrite Hws, <- (app_nil_r (cell_events _ _)).
    apply vga_writes_cells_nth. lia. }
  rewrite Enth in Hp. cbn [fst] in Hp. split; [lia |].
  rewrite Hws in Hin. exact (cell_events_chars _ _ _ _ Hin).
Qed.

(** The run on the image with sentinels at 4 and 12. *)
Lemma display_cells_used_witness :
  exists out,
    cmain scan_bound 0 42 image_blank (boot image_4_12) = Some out /\
    (13 <= length (vga_writes (trace (final out))) <= 34)%nat /\
    vga_base + 26 <= vga_address (final out) <= vga_base + 68.
Proof.
  destruct (display_cells_used scan_bound 0 42 image_blank image_4_12)
    as (out & E & A & _ & B); [lia | apply Nat.le_refl |].
  exists out. exact (conj E (conj A B)).
Defined.



(** X15.  The block that prints a number writes the decimal digits of the
    value and nothing else, one cell each, whatever [num_str] held before
    and wherever the cursor stands: between 1 and 10 digit characters that
    read back as the value. *)
Theorem print_num_writes_decimal fuel v loc st :
  0 <= v < 4294967296 -> (11 <= fuel)%nat ->
  exists loc' s,
    print_num fuel v loc st = Some (loc', vga_puts s st) /\
    (1 <= length s <= 10)%nat /\
    (forall c, In c s -> 48 <= c <= 57) /\
    parse_decimal s = v.
Proof.
  intros Hv Hf.
  destruct (print_num_spec fuel v loc st Hv Hf) as (loc' & E).
  exists loc', (decimal v). split; [exact E |].
  split; [apply decimal_length |].
  split; [intros c Hc; apply decimal_chars in Hc; lia |].
  now apply parse_decimal_decimal.
Qed.

(** The value 65535 printed from a buffer full of sevens. *)
Lemma print_num_writes_decimal_witness :
  exists loc' s,
    print_num 11 65535 (fun _ => 7) (boot image_blank)
    = Some (loc', vga_puts s (boot image_blank)) /\
    parse_decimal s = 65535.
Proof.
  destruct (print_num_writes_decimal 11 65535 (fun _ => 7) (boot image_blank))
    as (loc' & s & E & _ & _ & P); [lia | lia |].
  exists loc', s. exact (conj E P).
Defined.

(** X16.  [test] stores at the cursor as it stands and moves it by one
    byte, where every other write moves it by two first.  After any run of
    character writes from the initial cursor, [test] puts its 'q' on the
    cell written last (or on the first cell when nothing was written) and
    leaves the cursor on an odd offset, so that the next character write
    lands on an attribute byte. *)
Theorem test_misaligns_cursor l image c :
  (length l <= 100)%nat ->
  vga_address (test (vga_puts l (boot image)))
  = vga_base + 2 * Z.of_nat (length l) + 1 /\
  load8 (st_mem (test (vga_puts l (boot image))))
    (vga_base + 2 * Z.of_nat (length l)) = 113 /\
  attribute_cell (vga_address (vga_put c (test (vga_puts l (boot image))))).
Proof.
  intros Hl.
  assert (HA : vga_address (vga_puts l (boot image))
               = vga_base + 2 * Z.of_nat (length l)).
  { rewrite vga_puts_address; unfold boot; cbn [vga_address];
      [reflexivity | | ]; unfold vga_base; lia. }
  remember (vga_puts l (boot image)) as X eqn:EX. clear EX.
  unfold vga_put, test. cbn [vga_address st_mem]. rewrite HA.
  unfold vga_base.
  rewrite (u32_small (753664 + 2 * Z.of_nat (length l) + 1)) by lia.
  split; [reflexivity |]. split.
  - rewrite load8_store8_same. reflexivity.
  - exists (Z.of_nat (length l) + 1). split; [lia |].
    rewrite u32_small by lia. unfold vga_base. lia.
Qed.

(** [test] after the three characters "S: ". *)
Lemma test_misaligns_cursor_witness :
  vga_address (test (vga_puts [83; 58; 32] (boot image_blank)))
  = vga_base + 2 * Z.of_nat (length [83; 58; 32]) + 1 /\
  attribute_cell
    (vga_address (vga_put 69 (test (vga_puts [83; 58; 32] (boot image_blank))))).
Proof.
  destruct (test_misaligns_cursor [83; 58; 32] image_blank 69)
    as (A & _ & B); [simpl; lia |].
  exact (conj A B).
Defined.
